(** * The reactive state-synchronisation engine of [taipy/gui/gui.py]

    A shallow embedding of class [Gui]: the variable binder ([_bind],
    [_bind_global], [bind_var_val]), the inbound message dispatcher
    ([_manage_message], [_front_end_update], [_update_var],
    [__send_var_list_update], [_send_ws_update_with_dict]), the action
    dispatcher ([_on_action], [__call_function_with_args]) and the route
    table ([add_page], [add_partial]).

    Python objects are an inductive type of values, attribute namespaces are
    finite maps from names to values, and every method is a function in a
    state-and-exception monad over the engine state: a raised exception
    leaves the mutations done so far in place, as in Python.

    Strings are sequences of code points below 256 (the first block of
    Unicode, of which ASCII is the lower half); strings with a character
    beyond are outside the model. *)

From Stdlib Require Import ZArith List Ascii String Bool Lia.
From stdpp Require Import base option list gmap strings pretty.

Set Warnings "-register-all".

Open Scope string_scope.
Open Scope Z_scope.

(** ** Python values *)

(** A plain function object (an instance of [types.FunctionType]): what the
    action dispatcher inspects is its name and [__code__.co_argcount]. *)
Record pyfunc := PyFunc {
  fn_name : string;
  co_argcount : nat;
  fn_id : nat
}.

(** Floats and complex numbers are kept as IEEE-754 bit patterns, datetimes
    as a timestamp: the engine only tests their type and truth value. *)
Inductive value :=
| VNone
| VBool (b : bool)
| VInt (z : Z)
| VFloat (bits : Z)
| VComplex (re im : Z)
| VStr (s : string)
| VDatetime (t : Z)
| VList (l : list value)
| VDict (d : list (string * value))
| VMapDict (d : list (string * value))     (* utils._MapDictionary wrapper *)
| VFunc (f : pyfunc)                       (* types.FunctionType *)
| VObj (cls : string) (id : nat)           (* any other object *)
| VSelf.                                   (* the Gui instance itself *)

(** Truth value of an object, as tested by [if x:] and [x and y]. *)
Definition py_truthy (v : value) : bool :=
  match v with
  | VNone => false
  | VBool b => b
  | VInt z => negb (z =? 0)
  | VFloat bits => negb (Z.land bits (2 ^ 63 - 1) =? 0)
  | VComplex re im =>
      negb ((Z.land re (2 ^ 63 - 1) =? 0) && (Z.land im (2 ^ 63 - 1) =? 0))
  | VStr s => negb (String.eqb s "")
  | VList l => match l with [] => false | _ => true end
  | VDict d | VMapDict d => match d with [] => false | _ => true end
  | VDatetime _ | VFunc _ | VObj _ _ | VSelf => true
  end.

(** [isinstance] tests used by the source.  [bool] is a subclass of [int]. *)
Definition isinstance_str (v : value) : bool :=
  match v with VStr _ => true | _ => false end.
Definition isinstance_datetime (v : value) : bool :=
  match v with VDatetime _ => true | _ => false end.
Definition isinstance_int (v : value) : bool :=
  match v with VInt _ | VBool _ => true | _ => false end.
Definition isinstance_float (v : value) : bool :=
  match v with VFloat _ => true | _ => false end.
Definition isinstance_complex (v : value) : bool :=
  match v with VComplex _ _ => true | _ => false end.
Definition isinstance_bool (v : value) : bool :=
  match v with VBool _ => true | _ => false end.
Definition isinstance_dict (v : value) : bool :=
  match v with VDict _ => true | _ => false end.
Definition isinstance_list (v : value) : bool :=
  match v with VList _ => true | _ => false end.
Definition isinstance_MapDictionary (v : value) : bool :=
  match v with VMapDict _ => true | _ => false end.
Definition isinstance_FunctionType (v : value) : bool :=
  match v with VFunc _ => true | _ => false end.

(** ** Exceptions and warnings *)

Inductive exn_class :=
| ValueError | TypeError | KeyError | AttributeError
| SyntaxError | RuntimeError | OtherException (name : string).

(** An exception object: its class, which derives from [Exception]
    ([OtherException] names any class not listed), and its message. *)
Record exn := Exn { exn_cls : exn_class; exn_msg : string }.

Definition PyException (msg : string) : exn := Exn (OtherException "Exception") msg.

Inductive outcome (A : Type) :=
| Ok (a : A)
| Raise (e : exn).
Arguments Ok {A} a.
Arguments Raise {A} e.

Definition is_Ok {A} (o : outcome A) : bool :=
  match o with Ok _ => true | Raise _ => false end.

(** The calls to [warnings.warn] of the source, one constructor per call
    site, with the values interpolated into the message. *)
Inductive warning :=
| WDecodingFailed (message : list (string * value)) (te : exn)
| WCantAccess (message : list (string * value)) (ke : exn)
| WWebSocketError (e : exn)
| WWrongSignature (fname : string)
| WActionException (fname : string) (e : exn)
| WPartialDefined (route : string).

(** ** Built-ins on strings

    A character is a code point below 256; the classes below are those of
    the Unicode tables that the built-ins of Python consult, cut at 256. *)

(** A decimal digit. *)
Definition is_digit (c : ascii) : bool :=
  let n := nat_of_ascii c in (48 <=? n)%nat && (n <=? 57)%nat.

(** A character that may start an identifier: the underscore and the
    characters of class XID_Start (the letters, with the feminine and
    masculine ordinal indicators and the micro sign). *)
Definition is_alpha_ (c : ascii) : bool :=
  let n := nat_of_ascii c in
  ((65 <=? n)%nat && (n <=? 90)%nat) || ((97 <=? n)%nat && (n <=? 122)%nat)
  || (n =? 95)%nat
  || (n =? 170)%nat || (n =? 181)%nat || (n =? 186)%nat
  || ((192 <=? n)%nat && (n <=? 214)%nat)
  || ((216 <=? n)%nat && (n <=? 246)%nat)
  || ((248 <=? n)%nat && (n <=? 255)%nat).

(** A character that may continue an identifier (class XID_Continue): the
    above, the decimal digits and the middle dot. *)
Definition is_id_continue (c : ascii) : bool :=
  is_alpha_ c || is_digit c || (nat_of_ascii c =? 183)%nat.

(** A character that [\w] matches in a pattern on strings: the underscore
    and what [str.isalnum] accepts, that is the letters, the decimal digits,
    the superscript digits and the vulgar fractions. *)
Definition is_word_char (c : ascii) : bool :=
  let n := nat_of_ascii c in
  is_alpha_ c || is_digit c
  || (n =? 178)%nat || (n =? 179)%nat || (n =? 185)%nat
  || ((188 <=? n)%nat && (n <=? 190)%nat).

(** The whitespace that [int()] skips around a literal: tab, LF, VT, FF, CR
    and space, and the next-line and no-break-space characters, which it
    turns into spaces beforehand.  (The separators FS, GS, RS and US are not
    skipped.) *)
Definition is_space (c : ascii) : bool :=
  let n := nat_of_ascii c in
  ((9 <=? n)%nat && (n <=? 13)%nat) || (n =? 32)%nat
  || (n =? 133)%nat || (n =? 160)%nat.

Definition digit_val (c : ascii) : Z := Z.of_nat (nat_of_ascii c) - 48.

Fixpoint lstrip (l : list ascii) : list ascii :=
  match l with
  | c :: r => if is_space c then lstrip r else l
  | [] => []
  end.
Definition strip (l : list ascii) : list ascii := rev (lstrip (rev (lstrip l))).

(** The run of decimal digits at the head of [l], single underscores
    allowed between two digits: its value, the number of its digits and
    what follows it. *)
Fixpoint scan_digits (after_digit : bool) (acc : Z) (count : nat) (l : list ascii)
  : option (Z * nat * list ascii) :=
  match l with
  | [] => if after_digit then Some (acc, count, []) else None
  | c :: r =>
      if is_digit c then scan_digits true (acc * 10 + digit_val c) (S count) r
      else if Ascii.eqb c "_"%char then
        if after_digit then scan_digits false acc count r else None
      else if after_digit then Some (acc, count, l) else None
  end.

(** [sys.get_int_max_str_digits()], by default. *)
Definition int_max_str_digits : nat := 4300.

(** The magnitude that [int()] reads in [l], once whitespace and sign are
    off: a run of digits and nothing after it; a run of more digits than
    the limit of the interpreter is refused. *)
Definition py_int_magnitude (s : string) (l : list ascii) : outcome Z :=
  let bad := Raise (Exn ValueError
                      ("invalid literal for int() with base 10: '" ++ s ++ "'")) in
  match scan_digits false 0 0 l with
  | Some (z, count, rest) =>
      if (int_max_str_digits <? count)%nat then
        Raise (Exn ValueError
                 ("Exceeds the limit (4300 digits) for integer string conversion: value has "
                  ++ pretty count
                  ++ " digits; use sys.set_int_max_str_digits() to increase the limit"))
      else match rest with [] => Ok z | _ => bad end
  | None => bad
  end.

(** [int(s)] for a string [s]: surrounding whitespace is skipped, then an
    optional sign and a decimal literal are read; anything else raises
    [ValueError]. *)
Definition py_int (s : string) : outcome Z :=
  match strip (list_ascii_of_string s) with
  | c :: r =>
      if Ascii.eqb c "-"%char then
        match py_int_magnitude s r with Ok z => Ok (- z) | Raise e => Raise e end
      else if Ascii.eqb c "+"%char then py_int_magnitude s r
      else py_int_magnitude s (c :: r)
  | [] => Raise (Exn ValueError ("invalid literal for int() with base 10: '" ++ s ++ "'"))
  end.

(** [str.isidentifier]: a character that may start an identifier, followed
    by characters that may continue one. *)
Definition isidentifier (s : string) : bool :=
  match list_ascii_of_string s with
  | c :: r => is_alpha_ c && forallb is_id_continue r
  | [] => false
  end.

(** The characters of the class [[\w\-\/]]. *)
Definition is_page_char (c : ascii) : bool :=
  is_word_char c || Ascii.eqb c "-"%char || Ascii.eqb c "/"%char.

(** [re.compile(r"^[\w\-\/]+$").match(name)]: one or more page characters up
    to the end of the string; [$] also matches before a final newline. *)
Fixpoint match_page_chars (seen : bool) (l : list ascii) : bool :=
  match l with
  | [] => seen
  | c :: r =>
      if is_page_char c then match_page_chars true r
      else seen && Ascii.eqb c "010"%char && match r with [] => true | _ => false end
  end.
Definition RE_PAGE_NAME_match (name : string) : bool :=
  match_page_chars false (list_ascii_of_string name).

Definition startswith_slash (name : string) : bool :=
  match name with String c _ => Ascii.eqb c "/"%char | EmptyString => false end.

(** [s.split(".")] *)
Fixpoint split_dots (cur : string) (l : list ascii) : list string :=
  match l with
  | [] => [String.rev cur]
  | c :: r =>
      if Ascii.eqb c "."%char then String.rev cur :: split_dots "" r
      else split_dots (String c cur) r
  end.

(** ** Engine state *)

Inductive WsType :=
| UPDATE | ACTION | DATA_UPDATE | REQUEST_UPDATE
| MULTIPLE_UPDATE | ALERT | BLOCK | NAVIGATE.

(** One entry of the payload of an outbound multi-update message. *)
Record ws_entry := WsEntry { we_name : string; we_payload : value }.

(** What [self._server._ws.emit("message", {...}, to=...)] sends. *)
Record ws_message := WsMessage {
  ws_type : WsType;
  ws_payload : list ws_entry;
  ws_to : option string
}.

Record page := Page { route : string; renderer : value; style : value }.

(** The fields of the [Gui] instance and of the objects it owns that the
    modelled methods read or write.

    - [global_scope], [client_scopes], [multi_user]: the [_DataScopes] store;
      a client scope that was never written is the empty namespace, so that
      creating it on demand is not a change of state;
    - [request_sid]: the session identifier carried by the [flask.request]
      being served, if any;
    - [bound_props]: the names for which [_bind] installed a property on
      class [Gui];
    - [instance_dict]: attributes set on the instance after construction;
    - [routes], [pages], [partial_routes], [partials]: the lists of
      [self._config];
    - [emitted], [warnings_log], [calls]: the messages handed to the
      transport, the warnings issued and the callables invoked by the engine,
      oldest first. *)
Record gui := Gui {
  global_scope : gmap string value;
  client_scopes : gmap string (gmap string value);
  multi_user : bool;
  request_sid : option string;
  bound_props : gset string;
  instance_dict : gmap string value;
  _update_function : value;
  _action_function : value;
  routes : list string;
  pages : list page;
  partial_routes : list string;
  partials : list page;
  emitted : list ws_message;
  warnings_log : list warning;
  calls : list (value * list value)
}.

Definition with_global_scope (sc : gmap string value) (g : gui) : gui :=
  Gui sc (client_scopes g) (multi_user g) (request_sid g) (bound_props g)
      (instance_dict g) (_update_function g) (_action_function g) (routes g)
      (pages g) (partial_routes g) (partials g) (emitted g) (warnings_log g) (calls g).
Definition with_client_scopes (cs : gmap string (gmap string value)) (g : gui) : gui :=
  Gui (global_scope g) cs (multi_user g) (request_sid g) (bound_props g)
      (instance_dict g) (_update_function g) (_action_function g) (routes g)
      (pages g) (partial_routes g) (partials g) (emitted g) (warnings_log g) (calls g).
Definition with_request_sid (sid : option string) (g : gui) : gui :=
  Gui (global_scope g) (client_scopes g) (multi_user g) sid (bound_props g)
      (instance_dict g) (_update_function g) (_action_function g) (routes g)
      (pages g) (partial_routes g) (partials g) (emitted g) (warnings_log g) (calls g).
Definition with_bound_props (ps : gset string) (g : gui) : gui :=
  Gui (global_scope g) (client_scopes g) (multi_user g) (request_sid g) ps
      (instance_dict g) (_update_function g) (_action_function g) (routes g)
      (pages g) (partial_routes g) (partials g) (emitted g) (warnings_log g) (calls g).
Definition with_pages (rs : list string) (ps : list page) (g : gui) : gui :=
  Gui (global_scope g) (client_scopes g) (multi_user g) (request_sid g) (bound_props g)
      (instance_dict g) (_update_function g) (_action_function g) rs
      ps (partial_routes g) (partials g) (emitted g) (warnings_log g) (calls g).
Definition with_partials (rs : list string) (ps : list page) (g : gui) : gui :=
  Gui (global_scope g) (client_scopes g) (multi_user g) (request_sid g) (bound_props g)
      (instance_dict g) (_update_function g) (_action_function g) (routes g)
      (pages g) rs ps (emitted g) (warnings_log g) (calls g).
Definition with_emitted (ms : list ws_message) (g : gui) : gui :=
  Gui (global_scope g) (client_scopes g) (multi_user g) (request_sid g) (bound_props g)
      (instance_dict g) (_update_function g) (_action_function g) (routes g)
      (pages g) (partial_routes g) (partials g) ms (warnings_log g) (calls g).
Definition with_warnings_log (ws : list warning) (g : gui) : gui :=
  Gui (global_scope g) (client_scopes g) (multi_user g) (request_sid g) (bound_props g)
      (instance_dict g) (_update_function g) (_action_function g) (routes g)
      (pages g) (partial_routes g) (partials g) (emitted g) ws (calls g).
Definition with_calls (cs : list (value * list value)) (g : gui) : gui :=
  Gui (global_scope g) (client_scopes g) (multi_user g) (request_sid g) (bound_props g)
      (instance_dict g) (_update_function g) (_action_function g) (routes g)
      (pages g) (partial_routes g) (partials g) (emitted g) (warnings_log g) cs.

(** ** The state-and-exception monad *)

Definition M (A : Type) : Type := gui -> outcome A * gui.

Definition ret {A} (a : A) : M A := fun g => (Ok a, g).
Definition raise {A} (e : exn) : M A := fun g => (Raise e, g).
Definition bind {A B} (m : M A) (k : A -> M B) : M B :=
  fun g => match m g with
           | (Ok a, g') => k a g'
           | (Raise e, g') => (Raise e, g')
           end.
Definition lift {A} (o : outcome A) : M A := fun g => (o, g).
Definition gets {A} (f : gui -> A) : M A := fun g => (Ok (f g), g).
Definition modify (f : gui -> gui) : M unit := fun g => (Ok tt, f g).

(** [try: m except <classes accepted by catches> as e: handler e] *)
Definition try_except {A} (m : M A) (catches : exn -> bool) (handler : exn -> M A) : M A :=
  fun g => match m g with
           | (Raise e, g') => if catches e then handler e g' else (Raise e, g')
           | r => r
           end.

Declare Scope py_scope.
Delimit Scope py_scope with py.
Notation "x <- m ;; k" := (bind m (fun x => k))
  (at level 100, m at next level, right associativity) : py_scope.
Notation "m ;;; k" := (bind m (fun _ => k))
  (at level 100, right associativity) : py_scope.
Open Scope py_scope.

(** [warnings.warn(...)] *)
Definition warn (w : warning) : M unit :=
  modify (fun g => with_warnings_log (warnings_log g ++ [w]) g).

Definition except_Exception (e : exn) : bool := true.
Definition except_TypeError (e : exn) : bool :=
  match exn_cls e with TypeError => true | _ => false end.
Definition except_KeyError (e : exn) : bool :=
  match exn_cls e with KeyError => true | _ => false end.

(** ** Dictionaries: insertion-ordered association lists *)

Fixpoint dict_get (d : list (string * value)) (k : string) : option value :=
  match d with
  | [] => None
  | (k', v) :: r => if String.eqb k' k then Some v else dict_get r k
  end.

(** [d[k] = v]: an existing key keeps its position. *)
Fixpoint dict_set (k : string) (v : value) (d : list (string * value)) : list (string * value) :=
  match d with
  | [] => [(k, v)]
  | (k', v') :: r => if String.eqb k' k then (k, v) :: r else (k', v') :: dict_set k v r
  end.

(** [d[k]] *)
Definition dict_item (d : list (string * value)) (k : string) : outcome value :=
  match dict_get d k with
  | Some v => Ok v
  | None => Raise (Exn KeyError k)
  end.

(** Modelled from the spec: [utils._get_dict_value] is not part of the
    sources; an ACTION message carries a name that is a session identifier
    "or none", so a missing key reads as [None]. *)
Definition _get_dict_value (d : list (string * value)) (k : string) : value :=
  match dict_get d k with Some v => v | None => VNone end.

(** ** Collaborators

    [gui.py] delegates to objects whose classes are defined in other modules
    of the package ([_Evaluator], [_Adapter], [_DataAccessors], [Server],
    [Partial], [WsType], helpers of [utils]) and calls back into functions of
    the application.  The engine is parametric in them; their types say which
    part of the state each one may touch. *)
Record Env := {
  (* WsType.<member>.value *)
  WsType_value : WsType -> string;
  (* _Evaluator.get_hash_from_expr(expr) *)
  get_hash_from_expr : string -> string;
  (* _Evaluator.re_evaluate_expr(gui, var_name): recomputes the dependent
     expressions inside the active scope and returns their hashes *)
  re_evaluate_expr : string -> gmap string value -> outcome (list string) * gmap string value;
  (* _DataAccessors._cast_string_value(var_name, value) *)
  _cast_string_value : string -> value -> outcome value;
  (* _DataAccessors._is_data_access(var_name, value) *)
  _is_data_access : string -> value -> bool;
  (* _DataAccessors._get_data(var_name, value, payload) *)
  _get_data : string -> value -> value -> outcome value;
  (* _Adapter._run_adapter_for_var(var_name, value, index, id_only) *)
  _run_adapter_for_var : string -> value -> option string -> bool -> outcome value;
  (* utils.get_client_var_name(var_name) *)
  get_client_var_name : string -> string;
  (* utils.attrsetter(scope, attr_str, value) *)
  attrsetter : gmap string value -> string -> value -> outcome (gmap string value);
  (* utils.ISOToDate(s) and utils.dateToISO(d) *)
  ISOToDate : string -> outcome value;
  dateToISO : value -> outcome value;
  (* getattr(v, name) on a stored value, e.g. a _MapDictionary *)
  getattr_value : value -> string -> outcome value;
  (* _DataScopes.broadcast_data(name, value): the client scopes afterwards *)
  broadcast_data : string -> value -> gui -> gmap string (gmap string value);
  (* the exception, if any, raised by the transport when emitting *)
  ws_emit_error : ws_message -> option exn;
  (* the route drawn by the constructor Partial() *)
  new_partial_route : gui -> string;
  (* isinstance(renderer, PageRenderer) *)
  isinstance_PageRenderer : value -> bool;
  (* float(s), complex(s) and str(v) for a v that is not a string *)
  py_float : string -> outcome value;
  py_complex : string -> outcome value;
  py_repr : value -> string;
  (* calling a callable with positional arguments *)
  call_value : value -> list value -> gui -> outcome unit * gui;
  (* attributes of the instance that come from class Gui, its constructor
     and object: methods, constants, private fields *)
  class_attr : string -> option value
}.

Section Engine.

Variable E : Env.

(** *** Scopes *)

(** Modelled from the spec: [_DataScopes.get_scope] is not part of the
    sources.  "In single-user mode always the same scope object; in
    multi-user mode keyed by a session identifier, created on demand";
    without a session identifier the global scope is the active one. *)
Definition get_scope (g : gui) : gmap string value :=
  if multi_user g then
    match request_sid g with
    | Some sid => default ∅ (client_scopes g !! sid)
    | None => global_scope g
    end
  else global_scope g.

(** Writing the active scope back after a [setattr] on it. *)
Definition set_scope (sc : gmap string value) (g : gui) : gui :=
  if multi_user g then
    match request_sid g with
    | Some sid => with_client_scopes (<[sid := sc]> (client_scopes g)) g
    | None => with_global_scope sc g
    end
  else with_global_scope sc g.

(** Modelled from the spec: [_DataScopes.get_global_scope]. *)
Definition get_global_scope (g : gui) : gmap string value := global_scope g.

Definition _get_data_scope (g : gui) : gmap string value := get_scope g.

(** [getattr(scope, name)] *)
Definition getattr_scope (sc : gmap string value) (name : string) : outcome value :=
  match sc !! name with
  | Some v => Ok v
  | None => Raise (Exn AttributeError name)
  end.

(** [operator.attrgetter(path)(scope)]: the path is split at dots and
    followed attribute by attribute. *)
Definition attrgetter (path : string) (sc : gmap string value) : outcome value :=
  match split_dots "" (list_ascii_of_string path) with
  | first :: rest =>
      fold_left (fun o seg => match o with
                              | Ok v => getattr_value E v seg
                              | Raise e => Raise e
                              end)
                rest (getattr_scope sc first)
  | [] => Raise (Exn AttributeError path)
  end.

(** *** Attributes of the Gui instance *)

(** [getattr(self, name)].  A property installed by [_bind] is a data
    descriptor and wins over everything else: its getter, built by
    [__value_getter], reads the name in the active scope. *)
Definition getattr_self (g : gui) (name : string) : outcome value :=
  if decide (name ∈ bound_props g) then getattr_scope (_get_data_scope g) name
  else if String.eqb name "_update_function" then Ok (_update_function g)
  else if String.eqb name "_action_function" then Ok (_action_function g)
  else match instance_dict g !! name with
       | Some v => Ok v
       | None => match class_attr E name with
                 | Some v => Ok v
                 | None => Raise (Exn AttributeError name)
                 end
       end.

(** [hasattr(self, name)]: true unless the lookup raises [AttributeError]. *)
Definition hasattr_self (g : gui) (name : string) : bool :=
  is_Ok (getattr_self g name).

(** *** Binding *)

Definition _bind_global (name : string) (val : value) : M unit :=
  global_scope <- gets get_global_scope ;;
  if bool_decide (is_Some (global_scope !! name)) then ret tt
  else modify (with_global_scope (<[name := val]> global_scope)).

(** [setattr(self._get_data_scope(), name, val)] *)
Definition setattr_data_scope (name : string) (val : value) : M unit :=
  modify (fun g => set_scope (<[name := val]> (_get_data_scope g)) g).

Definition _bind (name : string) (val : value) : M unit :=
  bound <- gets (fun g => hasattr_self g name) ;;
  if bound then raise (Exn ValueError ("Variable '" ++ name ++ "' is already bound"))
  else if negb (isidentifier name) then
    raise (Exn ValueError ("Variable name '" ++ name ++ "' is invalid"))
  else
    (match val with
     | VDict d =>
         setattr_data_scope name (VMapDict d) ;;;
         _bind_global name (VMapDict d)
     | _ =>
         setattr_data_scope name val ;;;
         _bind_global name val
     end) ;;;
    modify (fun g => with_bound_props ({[name]} ∪ bound_props g) g).

Definition bind_var_val (var_name : string) (val : value) : M bool :=
  bound <- gets (fun g => hasattr_self g var_name) ;;
  if negb bound then
    _bind var_name val ;;;
    ret true
  else ret false.

Definition on_update (f : value) : M unit :=
  modify (fun g =>
    Gui (global_scope g) (client_scopes g) (multi_user g) (request_sid g) (bound_props g)
        (instance_dict g) f (_action_function g) (routes g)
        (pages g) (partial_routes g) (partials g) (emitted g) (warnings_log g) (calls g)).

Definition on_action (f : value) : M unit :=
  modify (fun g =>
    Gui (global_scope g) (client_scopes g) (multi_user g) (request_sid g) (bound_props g)
        (instance_dict g) (_update_function g) f (routes g)
        (pages g) (partial_routes g) (partials g) (emitted g) (warnings_log g) (calls g)).

(** Calling [f] on the positional arguments [args]: the engine records the
    call, then the callee runs, on the state that holds the record; what the
    callee makes the engine call in turn is recorded after it. *)
Definition invoke (f : value) (args : list value) : M unit :=
  modify (fun g => with_calls (calls g ++ [(f, args)]) g) ;;;
  call_value E f args.

(** *** Outbound updates *)

Definition _get_ws_receiver (g : gui) : option string :=
  match request_sid g with
  | None => None
  | Some sid => if negb (multi_user g) then None else Some sid
  end.

(** [v if isinstance(v, dict) and "value" in v else {"value": v}] *)
Definition wrap_value (v : value) : value :=
  match v with
  | VDict d => if bool_decide (is_Some (dict_get d "value")) then v else VDict [("value", v)]
  | _ => VDict [("value", v)]
  end.

Definition _send_ws_update_with_dict (modified_values : list (string * value)) : M unit :=
  let payload :=
    map (fun kv => WsEntry (get_client_var_name E (fst kv)) (wrap_value (snd kv)))
        modified_values in
  try_except
    (to <- gets _get_ws_receiver ;;
     let msg := WsMessage MULTIPLE_UPDATE payload to in
     match ws_emit_error E msg with
     | Some e => raise e
     | None => modify (fun g => with_emitted (emitted g ++ [msg]) g)
     end)
    except_Exception
    (fun e => warn (WWebSocketError e)).

(** A name used as an attribute path must be a string: [attrgetter] raises
    [TypeError] otherwise. *)
Definition as_name (v : value) : M string :=
  match v with
  | VStr s => ret s
  | _ => raise (Exn TypeError "attribute name must be a string")
  end.

(** [[self._run_adapter_for_var(_var, elt, str(idx)) for idx, elt in enumerate(l)]] *)
Fixpoint adapt_list (_var : string) (idx : nat) (l : list value) : outcome (list value) :=
  match l with
  | [] => Ok []
  | elt :: r =>
      match _run_adapter_for_var E _var elt (Some (pretty idx)) false with
      | Raise e => Raise e
      | Ok x => match adapt_list _var (S idx) r with
                | Raise e => Raise e
                | Ok xs => Ok (x :: xs)
                end
      end
  end.

(** The loop of [__send_var_list_update], with [ws_dict] as accumulator. *)
Fixpoint send_var_list_loop (modified_vars : list value) (ws_dict : list (string * value))
  : M (list (string * value)) :=
  match modified_vars with
  | [] => ret ws_dict
  | v :: rest =>
      _var <- as_name v ;;
      scope <- gets _get_data_scope ;;
      newvalue <- lift (attrgetter _var scope) ;;
      modify (fun g => with_client_scopes (broadcast_data E _var newvalue g) g) ;;;
      newvalue <- (if isinstance_datetime newvalue then lift (dateToISO E newvalue)
                   else ret newvalue) ;;
      if _is_data_access E _var newvalue then
        send_var_list_loop rest (dict_set (_var ++ ".refresh") (VBool true) ws_dict)
      else if isinstance_list newvalue then
        new_list <- lift (match newvalue with
                          | VList l => adapt_list _var 0 l
                          | _ => Ok []
                          end) ;;
        send_var_list_loop rest (dict_set _var (VList new_list) ws_dict)
      else
        newvalue <- lift (_run_adapter_for_var E _var newvalue None true) ;;
        if isinstance_MapDictionary newvalue then send_var_list_loop rest ws_dict
        else send_var_list_loop rest (dict_set _var newvalue ws_dict)
  end.

Definition __send_var_list_update (modified_vars : list value) : M unit :=
  ws_dict <- send_var_list_loop modified_vars [] ;;
  _send_ws_update_with_dict ws_dict.

(** *** Inbound updates *)

Definition _update_var (var_name : string) (val : value) (propagate : value) : M unit :=
  let hash_expr := get_hash_from_expr E var_name in
  modified_vars <-
    (if py_truthy propagate then
       scope <- gets _get_data_scope ;;
       scope' <- lift (attrsetter E scope hash_expr val) ;;
       modify (set_scope scope') ;;;
       if String.eqb var_name hash_expr then
         scope <- gets _get_data_scope ;;
         let (r, scope') := re_evaluate_expr E var_name scope in
         modify (set_scope scope') ;;;
         deps <- lift r ;;
         ret ([hash_expr] ++ deps)%list
       else ret [hash_expr]
     else ret [hash_expr]) ;;
  f <- gets _update_function ;;
  (if py_truthy f then invoke f [VSelf; VStr var_name; val] else ret tt) ;;;
  __send_var_list_update (map VStr modified_vars).

(** The type coercion of [_front_end_update]: the value to hand to
    [_update_var], or [None] where the source returns early. *)
Definition coerce_value (var_name : string) (currentvalue val : value) : outcome (option value) :=
  match val with
  | VStr s =>
      if isinstance_datetime currentvalue then
        match ISOToDate E s with Ok v => Ok (Some v) | Raise e => Raise e end
      else if isinstance_int currentvalue then
        if py_truthy val then
          match py_int s with Ok z => Ok (Some (VInt z)) | Raise e => Raise e end
        else Ok (Some (VInt 0))
      else if isinstance_float currentvalue then
        if py_truthy val then
          match py_float E s with Ok v => Ok (Some v) | Raise e => Raise e end
        else Ok (Some (VFloat 0))
      else if isinstance_complex currentvalue then
        if py_truthy val then
          match py_complex E s with Ok v => Ok (Some v) | Raise e => Raise e end
        else Ok (Some (VInt 0))
      else if isinstance_bool currentvalue then
        Ok (Some (VBool (py_truthy val)))
      else
        match _cast_string_value E var_name currentvalue with
        | Raise e => Raise e
        | Ok VNone => Ok None
        | Ok _ => Ok (Some val)
        end
  | _ => Ok (Some val)
  end.

Definition _front_end_update (var_name : value) (val : value) (propagate : value) : M unit :=
  name <- as_name var_name ;;
  scope <- gets _get_data_scope ;;
  currentvalue <- lift (attrgetter (get_hash_from_expr E name) scope) ;;
  coerced <- lift (coerce_value name currentvalue val) ;;
  match coerced with
  | None => ret tt
  | Some val' => _update_var name val' propagate
  end.

Definition _request_data_update (var_name : value) (payload : value) : M unit :=
  name <- as_name var_name ;;
  let var_name := get_hash_from_expr E name in
  scope <- gets _get_data_scope ;;
  newvalue <- lift (attrgetter var_name scope) ;;
  ret_payload <- lift (_get_data E var_name newvalue payload) ;;
  _send_ws_update_with_dict
    (dict_set (var_name ++ ".refresh") (VBool false) [(var_name, ret_payload)]).

(** [x in l] against the string ["names"] *)
Definition is_names (v : value) : bool :=
  match v with VStr s => String.eqb s "names" | _ => false end.

Definition _request_var_update (payload : value) : M unit :=
  match payload with
  | VDict d =>
      match dict_get d "names" with
      | Some (VList names) => __send_var_list_update names
      | _ => ret tt
      end
  | VStr s =>
      (* a substring test, then an index by a string *)
      if bool_decide (is_Some (String.index 0 "names" s))
      then raise (Exn TypeError "string indices must be integers")
      else ret tt
  | VList l =>
      if existsb is_names l
      then raise (Exn TypeError "list indices must be integers or slices, not str")
      else ret tt
  | _ => raise (Exn TypeError "argument is not iterable")
  end.

(** *** Actions *)

Definition is_not_None (v : value) : bool :=
  match v with VNone => false | _ => true end.

(** [str(v)] *)
Definition py_str (v : value) : string :=
  match v with VStr s => s | _ => py_repr E v end.

(** [__call_function_with_args(self, action_function=..., id=..., action=...,
    payload=...)]; a keyword that is not passed reads as [None]. *)
Definition __call_function_with_args (action_function id action payload : value) : M bool :=
  match action_function with
  | VFunc f =>
      try_except
        (let argcount := co_argcount f in
         match argcount with
         | 0%nat => invoke action_function [] ;;; ret true
         | 1%nat => invoke action_function [VSelf] ;;; ret true
         | 2%nat => invoke action_function [VSelf; id] ;;; ret true
         | 3%nat =>
             (if is_not_None action then invoke action_function [VSelf; id; action]
              else invoke action_function [VSelf; id; payload]) ;;;
             ret true
         | _ =>
             if (argcount =? 4)%nat && is_not_None action then
               invoke action_function [VSelf; id; action; payload] ;;;
               ret true
             else
               warn (WWrongSignature (fn_name f)) ;;;
               ret false
         end)
        except_Exception
        (fun e => warn (WActionException (fn_name f) e) ;;; ret false)
  | _ => ret false
  end.

(** The action named by a payload: the first statement of [_on_action]. *)
Definition action_of (payload : value) : value :=
  match payload with
  | VDict d => _get_dict_value d "action"
  | _ => VStr (py_str payload)
  end.

Definition hasattr_TypeError : exn :=
  Exn TypeError "hasattr(): attribute name must be string".

Definition _on_action (id payload : value) : M unit :=
  let action := action_of payload in
  done <-
    (if py_truthy action then
       name <- (match action with
                | VStr s => ret s
                | _ => raise hasattr_TypeError
                end) ;;
       has <- gets (fun g => hasattr_self g name) ;;
       if has then
         f <- (fun g => (getattr_self g name, g)) ;;
         __call_function_with_args f id VNone payload
       else ret false
     else ret false) ;;
  if done then ret tt
  else
    f <- gets _action_function ;;
    if py_truthy f then
      __call_function_with_args f id action payload ;;;
      ret tt
    else ret tt.

(** *** The message dispatcher *)

(** The statements under [try:] in [_manage_message]. *)
Definition _manage_message_try (msg_type : string) (message : list (string * value)) : M unit :=
  if String.eqb msg_type (WsType_value E UPDATE) then
    name <- lift (dict_item message "name") ;;
    payload <- lift (dict_item message "payload") ;;
    propagate <- (if bool_decide (is_Some (dict_get message "propagate"))
                  then lift (dict_item message "propagate")
                  else ret (VBool true)) ;;
    _front_end_update name payload propagate
  else if String.eqb msg_type (WsType_value E ACTION) then
    payload <- lift (dict_item message "payload") ;;
    _on_action (_get_dict_value message "name") payload
  else if String.eqb msg_type (WsType_value E DATA_UPDATE) then
    name <- lift (dict_item message "name") ;;
    payload <- lift (dict_item message "payload") ;;
    _request_data_update name payload
  else if String.eqb msg_type (WsType_value E REQUEST_UPDATE) then
    payload <- lift (dict_item message "payload") ;;
    _request_var_update payload
  else ret tt.

Definition _manage_message (msg_type : string) (message : list (string * value)) : M unit :=
  try_except
    (_manage_message_try msg_type message)
    (fun e => except_TypeError e || except_KeyError e)
    (fun e => if except_TypeError e then warn (WDecodingFailed message e)
              else warn (WCantAccess message e)).

(** *** Routes *)

Definition root_page_name : string := "TaiPy_root_page".

Definition shown_page_name (name : string) : string :=
  if String.eqb name root_page_name then "/" else name.

Definition add_page (name : value) (renderer : value) (style : value) : M unit :=
  match name with
  | VNone => raise (PyException "name is required for add_page function!")
  | VStr name =>
      if negb (RE_PAGE_NAME_match name) then
        raise (Exn SyntaxError ("Page name " ++ name ++ " is invalid."))
      else if startswith_slash name then
        raise (Exn SyntaxError ("Page name " ++ name ++ " cannot start with forward slash (/) character"))
      else
        known <- gets (fun g => bool_decide (name ∈ routes g)) ;;
        if known then
          raise (PyException ("Page name " ++ shown_page_name name ++ " is already defined"))
        else if negb (isinstance_PageRenderer E renderer) then
          raise (PyException ("Page name " ++ shown_page_name name ++ " has invalid PageRenderer"))
        else
          let new_page := Page name renderer style in
          modify (fun g => with_pages (routes g ++ [name]) (pages g ++ [new_page]) g)
  | _ => raise (Exn TypeError "expected string or bytes-like object")
  end.

Definition add_partial (renderer : value) : M page :=
  new_route <- gets (new_partial_route E) ;;
  clash <- gets (fun g => bool_decide (new_route ∈ partial_routes g)
                          || bool_decide (new_route ∈ routes g)) ;;
  (if clash then warn (WPartialDefined new_route) else ret tt) ;;;
  if negb (isinstance_PageRenderer E renderer) then
    raise (PyException ("Partial name " ++ new_route ++ " has invalid PageRenderer"))
  else
    let new_partial := Page new_route renderer VNone in
    modify (fun g => with_partials (partial_routes g ++ [new_route])
                                   (partials g ++ [new_partial]) g) ;;;
    ret new_partial.

End Engine.

Arguments get_scope : simpl never.
Arguments set_scope : simpl never.

(** ** A reference engine

    An engine in its initial configuration: no expression, adapter, data
    accessor or observer registered, and a transport that is up. *)
Module Reference.

(** Modelled from the spec: [WsType] is not part of the sources; the
    message kinds are named as in the message envelope. *)
Definition WsType_value (t : WsType) : string :=
  match t with
  | UPDATE => "UPDATE" | ACTION => "ACTION" | DATA_UPDATE => "DATA_UPDATE"
  | REQUEST_UPDATE => "REQUEST_UPDATE" | MULTIPLE_UPDATE => "MULTIPLE_UPDATE"
  | ALERT => "ALERT" | BLOCK => "BLOCK" | NAVIGATE => "NAVIGATE"
  end.

(** Modelled from the spec: [_Evaluator.get_hash_from_expr] is not part of
    the sources; an expression that is a single variable has the variable's
    own hash, which is its name on the wire. *)
Definition get_hash_from_expr (expr : string) : string := expr.

(** Modelled from the spec: [_Evaluator.re_evaluate_expr] is not part of the
    sources; with no dependent registered it returns the singleton of the
    variable's own hash and recomputes nothing. *)
Definition re_evaluate_expr (var_name : string) (sc : gmap string value)
  : outcome (list string) * gmap string value := (Ok [var_name], sc).

(** Modelled from the spec: [_DataAccessors] is not part of the sources;
    with no accessor registered no caster applies (the sentinel [None]), no
    value is a data access and a query has no result. *)
Definition _cast_string_value (var_name : string) (v : value) : outcome value := Ok VNone.
Definition _is_data_access (var_name : string) (v : value) : bool := false.
Definition _get_data (var_name : string) (v payload : value) : outcome value := Ok VNone.

(** Modelled from the spec: [_Adapter._run_adapter_for_var] is not part of
    the sources; "if no adapter is registered, the raw value passes through
    unchanged". *)
Definition _run_adapter_for_var (var_name : string) (v : value) (index : option string)
  (id_only : bool) : outcome value := Ok v.

(** Modelled from the spec: [utils.get_client_var_name] is not part of the
    sources; the hash is "the wire-level variable name". *)
Definition get_client_var_name (var_name : string) : string := var_name.

(** Modelled from the spec: [_MapDictionary] is not part of the sources; a
    nested key reads like an attribute. *)
Definition getattr_value (v : value) (name : string) : outcome value :=
  match v with
  | VMapDict d =>
      match dict_get d name with
      | Some x => Ok (match x with VDict d' => VMapDict d' | _ => x end)
      | None => Raise (Exn AttributeError name)
      end
  | _ => Raise (Exn AttributeError name)
  end.

(** Modelled from the spec: [utils.attrsetter] is not part of the sources; it
    is [setattr] along a dotted path: a plain name is set in the scope, a
    path of two segments sets a key of the observable mapping stored under
    the first one. *)
Definition attrsetter (sc : gmap string value) (attr_str : string) (v : value)
  : outcome (gmap string value) :=
  match split_dots "" (list_ascii_of_string attr_str) with
  | [name] => Ok (<[name := v]> sc)
  | [name; key] =>
      match sc !! name with
      | Some (VMapDict d) => Ok (<[name := VMapDict (dict_set key v d)]> sc)
      | _ => Raise (Exn AttributeError name)
      end
  | _ => Raise (Exn AttributeError attr_str)
  end.

(** Dates travel as the decimal timestamp here; the reference scenarios
    store no date, float or complex number. *)
Definition ISOToDate (s : string) : outcome value :=
  match py_int s with Ok z => Ok (VDatetime z) | Raise e => Raise e end.
Definition dateToISO (d : value) : outcome value :=
  match d with
  | VDatetime t => Ok (VStr (pretty t))
  | _ => Raise (Exn AttributeError "isoformat")
  end.
Definition py_float (s : string) : outcome value :=
  Raise (Exn ValueError ("could not convert string to float: " ++ s)).
Definition py_complex (s : string) : outcome value :=
  Raise (Exn ValueError "complex() arg is a malformed string").

Definition py_repr (v : value) : string :=
  match v with
  | VNone => "None"
  | VBool true => "True"
  | VBool false => "False"
  | VInt z => pretty z
  | _ => "<object>"
  end.

(** Modelled from the spec: [_DataScopes.broadcast_data] is not part of the
    sources; with no secondary observer attached nobody is notified. *)
Definition broadcast_data (name : string) (v : value) (g : gui)
  : gmap string (gmap string value) := client_scopes g.

Definition ws_emit_error (msg : ws_message) : option exn := None.

(** Modelled from the spec: [Partial] is not part of the sources; each
    partial gets a route of its own, numbered by creation. *)
Definition new_partial_route (g : gui) : string :=
  "TaiPy_partials_" ++ pretty (length (partial_routes g)).

Definition isinstance_PageRenderer (v : value) : bool :=
  match v with VObj cls _ => String.eqb cls "PageRenderer" | _ => false end.

(** The functions of the application: number 1 raises, the others return;
    anything that is not a function cannot be called. *)
Definition call_value (f : value) (args : list value) (g : gui) : outcome unit * gui :=
  match f with
  | VFunc fn =>
      match fn_id fn with
      | 1%nat => (Raise (Exn ValueError "boom"), g)
      | _ => (Ok tt, g)
      end
  | _ => (Raise (Exn TypeError "object is not callable"), g)
  end.

(** The members of class [Gui] and the fields set by its constructor. *)
Definition Gui_methods : list string :=
  ["_get_app_config"; "_get_themes"; "_get_data_scope"; "_bind"; "_bind_global";
   "_Gui__value_getter"; "_manage_message"; "_front_end_update"; "_update_var";
   "_Gui__send_var_list_update"; "_request_data_update"; "_request_var_update";
   "_send_ws_update"; "_send_ws_alert"; "_send_ws_block"; "_send_ws_navigate";
   "_send_ws_update_with_dict"; "_get_ws_receiver"; "_on_action";
   "_Gui__call_function_with_args"; "_evaluate_expr"; "_re_evaluate_expr";
   "_get_hash_from_expr"; "_get_expr_from_hash"; "_is_expression";
   "_fetch_expression_list"; "_add_list_for_variable"; "_add_adapter_for_type";
   "_add_type_for_var"; "_get_adapter_for_type"; "_run_adapter_for_var";
   "_run_adapter"; "_get_valid_adapter_result"; "add_page"; "add_pages";
   "add_partial"; "bind_var"; "bind_var_val"; "bind_func"; "on_update";
   "on_action"; "load_config"; "send_alert"; "block_ui"; "unblock_ui";
   "_is_ui_blocked"; "_Gui__get_on_cancel_block_ui"; "navigate";
   "register_data_accessor"; "get_flask_app"; "run"].
Definition Gui_fields : list string :=
  ["_server"; "_config"; "_accessors"; "_scopes"; "_evaluator"; "_adapter";
   "_reserved_routes"; "_directory_name_of_pages"; "_flask_blueprint";
   "_Gui__root_page_name"; "_Gui__env_filename"; "_Gui__UI_BLOCK_NAME";
   "_Gui__RE_HTML"; "_Gui__RE_MD"; "_Gui__RE_PAGE_NAME"; "_markdown"].

Definition class_attr (name : string) : option value :=
  if String.eqb name "_get_instance" then Some (VFunc (PyFunc "_get_instance" 0 0))
  else if bool_decide (name ∈ Gui_methods) then Some (VObj "method" 0)
  else if bool_decide (name ∈ Gui_fields) then Some (VObj "object" 0)
  else None.

Definition env : Env :=
  Build_Env WsType_value get_hash_from_expr re_evaluate_expr _cast_string_value
    _is_data_access _get_data _run_adapter_for_var get_client_var_name attrsetter
    ISOToDate dateToISO getattr_value broadcast_data ws_emit_error new_partial_route
    isinstance_PageRenderer py_float py_complex py_repr call_value class_attr.

(** The engine just after construction, serving a request of session [sid]. *)
Definition start (multi : bool) (sid : option string) : gui :=
  Gui ∅ ∅ multi sid ∅ ∅ VNone VNone [] [] [] [] [] [] [].

(** The state left by a computation, whatever its outcome. *)
Definition after {A} (m : M A) (g : gui) : gui := snd (m g).

(** Functions of the application and a page renderer. *)
Definition on_change : value := VFunc (PyFunc "on_change" 3 0).
Definition on_act : value := VFunc (PyFunc "on_act" 3 0).
Definition failing : pyfunc := PyFunc "failing" 3 1.
Definition renderer0 : value := VObj "PageRenderer" 0.

(** [count] bound to 0 by a single-user engine, then an update callback
    registered. *)
Definition g_count : gui := after (_bind env "count" (VInt 0)) (start false None).
Definition g_watched : gui := after (on_update on_change) g_count.

Definition g_failing : gui := after (on_action (VFunc failing)) (start false None).

(** An engine with the page [home]. *)
Definition g_home : gui :=
  after (add_page env (VStr "home") renderer0 (VStr "")) (start false None).

End Reference.

(** ** Further methods of the engine

    For the message kinds other than MULTIPLE_UPDATE, the entries of a
    [ws_message] are the fields of the message besides its type, each under
    its key. *)

Definition with_instance_dict (d : gmap string value) (g : gui) : gui :=
  Gui (global_scope g) (client_scopes g) (multi_user g) (request_sid g) (bound_props g)
      d (_update_function g) (_action_function g) (routes g)
      (pages g) (partial_routes g) (partials g) (emitted g) (warnings_log g) (calls g).

(** [Gui.__UI_BLOCK_NAME] *)
Definition UI_BLOCK_NAME : string := "TaipyUiBlockVar".

(** The argument of [add_pages]: a dictionary from names to renderers, or
    anything that is neither a dictionary nor a string (a string names a
    folder of the file system, which is not modelled). *)
Inductive pages_arg :=
| PagesDict (d : list (value * value))
| PagesOther.

Section Controls.

Variable E : Env.

(** The [try: self._server._ws.emit(...) except Exception] block that the
    [_send_ws_*] methods share. *)
Definition ws_emit (type : WsType) (fields : list ws_entry) : M unit :=
  try_except
    (to <- gets _get_ws_receiver ;;
     let msg := WsMessage type fields to in
     match ws_emit_error E msg with
     | Some e => raise e
     | None => modify (fun g => with_emitted (emitted g ++ [msg]) g)
     end)
    except_Exception
    (fun e => warn (WWebSocketError e)).

Definition _send_ws_update (var_name : string) (payload : value) : M unit :=
  ws_emit UPDATE [WsEntry "name" (VStr (get_client_var_name E var_name));
                  WsEntry "payload" payload].

Definition _send_ws_alert (type message browser_notification duration : value) : M unit :=
  ws_emit ALERT [WsEntry "atype" type; WsEntry "message" message;
                 WsEntry "browser" browser_notification; WsEntry "duration" duration].

Definition _send_ws_block (action message close cancel : value) : M unit :=
  ws_emit BLOCK [WsEntry "action" action; WsEntry "close" close;
                 WsEntry "message" message;
                 WsEntry "noCancel" (VBool (negb (py_truthy cancel)))].

Definition _send_ws_navigate (to : value) : M unit :=
  ws_emit NAVIGATE [WsEntry "to" to].

(** [x in self._config.routes] for any object [x] *)
Definition in_routes (x : value) (rs : list string) : bool :=
  match x with VStr s => bool_decide (s ∈ rs) | _ => false end.

(** [navigate(to)].  The text of the warning it issues, if any, is returned
    beside the outcome. *)
Definition navigate (to : value) (g : gui) : (outcome unit * gui) * option string :=
  let to := if py_truthy to then to else VStr root_page_name in
  if negb (in_routes to (routes g)) then
    ((Ok tt, g),
     Some ("cannot navigate to '" ++ py_str E to ++ "' which is not a declared route."))
  else (_send_ws_navigate to g, None).

(** [k] after [if k == "/": k = Gui.__root_page_name] *)
Definition page_key (k : value) : value :=
  match k with
  | VStr s => if String.eqb s "/" then VStr root_page_name else k
  | _ => k
  end.

Fixpoint add_pages_loop (items : list (value * value)) : M unit :=
  match items with
  | [] => ret tt
  | (k, v) :: rest =>
      add_page E (page_key k) v (VStr "") ;;;
      add_pages_loop rest
  end.

Definition add_pages (pages : pages_arg) : M unit :=
  match pages with
  | PagesDict d => add_pages_loop d
  | PagesOther => ret tt
  end.

(** [setattr(self, name, val)]: a property installed by [_bind] routes the
    assignment to its setter, [lambda s, v: s._update_var(name, v)]. *)
Definition setattr_self (name : string) (val : value) : M unit :=
  is_prop <- gets (fun g => bool_decide (name ∈ bound_props g)) ;;
  if is_prop then _update_var E name val (VBool true)
  else if String.eqb name "_update_function" then on_update val
  else if String.eqb name "_action_function" then on_action val
  else modify (fun g => with_instance_dict (<[name := val]> (instance_dict g)) g).

(** [self._locals_bind]: the locals captured by [run], if it ran. *)
Definition get_locals_bind (locals_bind : option (list (string * value)))
  : M (list (string * value)) :=
  match locals_bind with
  | Some d => ret d
  | None => raise (Exn AttributeError "_locals_bind")
  end.

Definition bind_var (locals_bind : option (list (string * value))) (var_name : string)
  : M bool :=
  bound <- gets (fun g => hasattr_self E g var_name) ;;
  if bound then ret false
  else
    locals <- get_locals_bind locals_bind ;;
    match dict_get locals var_name with
    | Some val => _bind E var_name val ;;; ret true
    | None => ret false
    end.

Definition bind_func (locals_bind : option (list (string * value))) (func_name : value)
  : M bool :=
  match func_name with
  | VStr name =>
      bound <- gets (fun g => hasattr_self E g name) ;;
      if bound then ret false
      else
        locals <- get_locals_bind locals_bind ;;
        match dict_get locals name with
        | Some (VFunc f) => setattr_self name (VFunc f) ;;; ret true
        | _ => ret false
        end
  | _ => ret false
  end.

(** The function returned by [__get_on_cancel_block_ui(callback)]. *)
Definition _taipy_on_cancel_block_ui (callback : value) (id payload : value) : M unit :=
  blocked <- gets (fun g => bool_decide (is_Some (_get_data_scope g !! UI_BLOCK_NAME))) ;;
  (if blocked then setattr_data_scope UI_BLOCK_NAME (VBool false) else ret tt) ;;;
  _on_action E id callback.

(** [block_ui(callback, message)]; [fid] identifies the function object
    that [__get_on_cancel_block_ui] creates. *)
Definition block_ui (locals_bind : option (list (string * value))) (fid : nat)
  (callback message : value) : M unit :=
  let action_name := match callback with VFunc f => VStr (fn_name f) | _ => callback end in
  (if py_truthy action_name then bind_func locals_bind action_name ;;; ret tt else ret tt) ;;;
  let func := PyFunc "_taipy_on_cancel_block_ui" 3 fid in
  let def_action_name := fn_name func in
  setattr_self def_action_name (VFunc func) ;;;
  blocked <- gets (fun g => bool_decide (is_Some (_get_data_scope g !! UI_BLOCK_NAME))) ;;
  (if blocked then setattr_data_scope UI_BLOCK_NAME (VBool true)
   else _bind E UI_BLOCK_NAME (VBool true)) ;;;
  _send_ws_block (VStr def_action_name) message (VBool false) (VBool (py_truthy action_name)).

Definition unblock_ui : M unit :=
  blocked <- gets (fun g => bool_decide (is_Some (_get_data_scope g !! UI_BLOCK_NAME))) ;;
  (if blocked then setattr_data_scope UI_BLOCK_NAME (VBool false) else ret tt) ;;;
  _send_ws_block VNone VNone (VBool true) (VBool false).

(** [getattr(self._get_data_scope(), Gui.__UI_BLOCK_NAME, False)] *)
Definition _is_ui_blocked (g : gui) : value :=
  default (VBool false) (_get_data_scope g !! UI_BLOCK_NAME).

End Controls.

(** ** Further runs of the reference engine *)
Module Scenarios.

Import Reference.

(** [count] bound to 7 by a single-user engine. *)
Definition g_seven : gui := after (_bind env "count" (VInt 7)) (start false None).

(** A multi-user engine on which session [B], then session [A], bound
    [counter]; session [A] is being served. *)
Definition g_two_sessions : gui :=
  after (_bind env "counter" (VInt 1))
    (with_request_sid (Some "A")
       (after (_bind env "counter" (VInt 2)) (start true (Some "B")))).

(** An engine that carries the function [do_it] of the application. *)
Definition do_it : pyfunc := PyFunc "do_it" 3 0.
Definition g_do_it : gui :=
  with_instance_dict (<["do_it" := VFunc do_it]> ∅) (start false None).

(** The locals of an application that defines [on_cancel] and [total]. *)
Definition on_cancel : pyfunc := PyFunc "on_cancel" 2 0.
Definition app_locals : list (string * value) :=
  [("on_cancel", VFunc on_cancel); ("total", VInt 3)].

(** The engine after [block_ui(on_cancel)]. *)
Definition g_blocked : gui :=
  after (block_ui env (Some app_locals) 7 (VFunc on_cancel) (VStr "Work in Progress..."))
        (start false None).

(** A dictionary of pages whose second name is refused. *)
Definition pages_ok : list (value * value) := [(VStr "/", renderer0)].
Definition pages_rest : list (value * value) := [(VStr "docs", renderer0)].
Definition g_root : gui := after (add_pages env (PagesDict pages_ok)) (start false None).

End Scenarios.

(** What [_bind] stores for [val]: a dictionary is wrapped in an observable
    mapping. *)
Definition bound_value (val : value) : value :=
  match val with VDict d => VMapDict d | _ => val end.

(** The state after a bind that went through. *)
Definition bind_result (name : string) (val : value) (g : gui) : gui :=
  let g1 := set_scope (<[name := bound_value val]> (get_scope g)) g in
  let g2 := match global_scope g1 !! name with
            | Some _ => g1
            | None => with_global_scope (<[name := bound_value val]> (global_scope g1)) g1
            end in
  with_bound_props ({[name]} ∪ bound_props g2) g2.

(** A computation that leaves the observation [obs] of the state as it
    found it, whatever its outcome. *)
Definition keeps {A X} (obs : gui -> X) (m : M A) : Prop :=
  forall g, obs (snd (m g)) = obs g.

(** The observers notified by a broadcast do not include the scope of the
    session being served. *)
Definition broadcast_spares_active (E : Env) : Prop :=
  forall (name : string) (v : value) (g : gui),
    get_scope (with_client_scopes (broadcast_data E name v g) g) = get_scope g.

(** Whether the write of [_update_var] under a true [propagate] goes
    through: [attrsetter] and then, for a plain variable, the recomputation
    of its dependents. *)
Definition write_succeeds (E : Env) (var_name : string) (val : value) (g : gui) : bool :=
  match attrsetter E (get_scope g) (get_hash_from_expr E var_name) val with
  | Ok scope' =>
      if String.eqb var_name (get_hash_from_expr E var_name)
      then is_Ok (fst (re_evaluate_expr E var_name scope'))
      else true
  | Raise _ => false
  end.

(** The positional arguments that [__call_function_with_args] passes to a
    function of [argcount] parameters, if it calls it at all. *)
Definition call_args (argcount : nat) (id action payload : value) : option (list value) :=
  match argcount with
  | 0%nat => Some []
  | 1%nat => Some [VSelf]
  | 2%nat => Some [VSelf; id]
  | 3%nat => Some (if is_not_None action then [VSelf; id; action] else [VSelf; id; payload])
  | 4%nat => if is_not_None action then Some [VSelf; id; action; payload] else None
  | _ => None
  end.

(** Symbolic execution of the monad's plumbing. *)
Ltac mstep := cbv beta iota delta [bind ret gets lift modify raise].

(** [self._reserved_routes], as set by the constructor. *)
Definition _reserved_routes : list string := ["initialize"; "flask-jsx"].

(** Calls that register routes, and the state after a sequence of them,
    whatever the outcome of each. *)
Inductive route_call :=
| AddPage (name renderer style : value)
| AddPartial (renderer : value).

Definition run_route_call (E : Env) (c : route_call) (g : gui) : gui :=
  match c with
  | AddPage name renderer style => snd (add_page E name renderer style g)
  | AddPartial renderer => snd (add_partial E renderer g)
  end.

Fixpoint run_route_calls (E : Env) (cs : list route_call) (g : gui) : gui :=
  match cs with
  | [] => g
  | c :: rest => run_route_calls E rest (run_route_call E c g)
  end.

(** The message kinds that [_manage_message] dispatches on. *)
Definition inbound_kinds : list WsType := [UPDATE; ACTION; DATA_UPDATE; REQUEST_UPDATE].

(** The outbound message of the [count] scenario, for a given receiver. *)
Definition count_update (to : option string) : ws_message :=
  WsMessage MULTIPLE_UPDATE [WsEntry "count" (VDict [("value", VInt 5)])] to.

(** Every name bound on the engine has a default in the global scope. *)
Definition bound_have_default (g : gui) : Prop :=
  forall name : string, name ∈ bound_props g -> is_Some (global_scope g !! name).

(** A sequence of binds, each made while serving the given session. *)
Fixpoint run_binds (E : Env) (cs : list (option string * string * value)) (g : gui) : gui :=
  match cs with
  | [] => g
  | (sid, name, val) :: rest =>
      run_binds E rest (snd (_bind E name val (with_request_sid sid g)))
  end.

(** A name without a dot: an attribute path of a single segment. *)
Definition plain_name (name : string) : Prop :=
  split_dots "" (list_ascii_of_string name) = [name].

(** The lists of [self._config] go by pairs: the route of each page and of
    each partial, in order. *)
Definition config_aligned (g : gui) : Prop :=
  map route (pages g) = routes g /\ map route (partials g) = partial_routes g.

(** The result [r] of a send from state [g]: normal return, and either
    one more message, of kind [t] and addressed to the receiver of the
    request, or one more warning, for the exception of the transport. *)
Definition emits_or_warns (t : WsType) (g : gui) (r : outcome unit * gui) : Prop :=
  fst r = Ok tt
  /\ ((exists msg, emitted (snd r) = (emitted g ++ [msg])%list
                   /\ warnings_log (snd r) = warnings_log g
                   /\ ws_type msg = t /\ ws_to msg = _get_ws_receiver g)
      \/ (exists e, emitted (snd r) = emitted g
                    /\ warnings_log (snd r) = (warnings_log g ++ [WWebSocketError e])%list)).

(** A name made of one or more page characters, with at most one newline
    appended. *)
Definition page_name_shape (l : list ascii) : Prop :=
  exists body : list ascii,
    body <> [] /\ forallb is_page_char body = true
    /\ (l = body \/ l = (body ++ ["010"%char])%list).

(** ** Properties *)

Example py_int_5 : py_int "5" = Ok 5.
Proof. reflexivity. Qed.
Example py_int_signed : py_int " -1_000 " = Ok (-1000).
Proof. reflexivity. Qed.
Example py_int_abc : is_Ok (py_int "abc") = false.
Proof. reflexivity. Qed.
(** The separator FS (code point 28) is no whitespace for [int()]; the
    next-line and no-break-space characters are. *)
Example py_int_separator :
  is_Ok (py_int (String (ascii_of_nat 28) "5")) = false
  /\ py_int (String (ascii_of_nat 133) (String "5" (String (ascii_of_nat 160) ""))) = Ok 5.
Proof. split; reflexivity. Qed.
(** A literal of 4300 digits is read, one of 4301 digits is refused, leading
    zeros counted. *)
Example py_int_limit :
  is_Ok (py_int (string_of_list_ascii (repeat "0"%char 4300))) = true
  /\ is_Ok (py_int (string_of_list_ascii (repeat "0"%char 4301))) = false.
Proof. split; vm_compute; reflexivity. Qed.
Example page_name_ok : RE_PAGE_NAME_match "docs/page-1" = true.
Proof. reflexivity. Qed.
(** An accented letter (here code point 233) is a word character. *)
Example page_name_accented :
  RE_PAGE_NAME_match (String "c" (String "a" (String "f" (String (ascii_of_nat 233) ""))))
  = true.
Proof. reflexivity. Qed.
Example page_name_bad : RE_PAGE_NAME_match "a b" = false.
Proof. reflexivity. Qed.

Section EngineFacts.

Variable E : Env.

Lemma get_scope_set_scope (sc : gmap string value) (g : gui) :
  get_scope (set_scope sc g) = sc.
Proof.
  unfold get_scope, set_scope.
  destruct (multi_user g) eqn:Hm; [destruct (request_sid g) eqn:Hs|]; simpl;
    rewrite ?Hm, ?Hs; simpl; trivial.
  by rewrite lookup_insert_eq.
Qed.

Lemma bound_props_set_scope (sc : gmap string value) (g : gui) :
  bound_props (set_scope sc g) = bound_props g.
Proof.
  unfold set_scope. destruct (multi_user g); [destruct (request_sid g)|]; reflexivity.
Qed.

(** [_bind_global] never raises and writes the global scope only, and only
    at a name that the global scope does not hold yet. *)
Lemma _bind_global_spec (name : string) (val : value) (g : gui) :
  _bind_global name val g =
    (Ok tt, match global_scope g !! name with
            | Some _ => g
            | None => with_global_scope (<[name := val]> (global_scope g)) g
            end).
Proof.
  unfold _bind_global, bind, gets, get_global_scope, ret, modify.
  destruct (global_scope g !! name) eqn:Hg.
  - rewrite bool_decide_eq_true_2; [reflexivity | eauto].
  - rewrite bool_decide_eq_false_2; [reflexivity |]. intros [x Hx]. congruence.
Qed.

Lemma _bind_spec (name : string) (val : value) (g : gui) :
  _bind E name val g =
    if hasattr_self E g name then
      (Raise (Exn ValueError ("Variable '" ++ name ++ "' is already bound")), g)
    else if negb (isidentifier name) then
      (Raise (Exn ValueError ("Variable name '" ++ name ++ "' is invalid")), g)
    else (Ok tt, bind_result name val g).
Proof.
  unfold _bind, bind, gets, raise.
  destruct (hasattr_self E g name); [reflexivity|].
  destruct (isidentifier name); [|reflexivity]. simpl.
  unfold bind_result, bound_value, setattr_data_scope, _get_data_scope, bind, modify.
  destruct val; rewrite _bind_global_spec; reflexivity.
Qed.

(** The active scope after a bind holds the value under the name. *)
Lemma get_scope_bind_result (name : string) (val : value) (g : gui) :
  get_scope (bind_result name val g) !! name = Some (bound_value val).
Proof.
  unfold bind_result.
  set (g1 := set_scope _ g).
  assert (H1 : get_scope g1 !! name = Some (bound_value val)).
  { unfold g1. rewrite get_scope_set_scope. apply lookup_insert_eq. }
  destruct (global_scope g1 !! name) eqn:Hg; [exact H1|].
  revert H1. unfold get_scope. simpl.
  destruct (multi_user g1); [destruct (request_sid g1)|]; trivial; congruence.
Qed.

Lemma hasattr_bind_result (name : string) (val : value) (g : gui) :
  hasattr_self E (bind_result name val g) name = true.
Proof.
  unfold hasattr_self, getattr_self, _get_data_scope.
  rewrite decide_True.
  - unfold getattr_scope. rewrite get_scope_bind_result. reflexivity.
  - unfold bind_result. simpl. set_solver.
Qed.

(** C2. A second bind of a name, after a first bind of it that went
    through, raises the binding error [ValueError]; so does a bind under a
    name that is not a valid identifier; in both cases the state of the
    engine, all scopes included, is left as it was. *)
Theorem bind_twice_or_invalid_fails (name : string) (v1 v2 : value) (g : gui) :
  fst (_bind E name v1 g) = Ok tt ->
  let g1 := snd (_bind E name v1 g) in
  (exists msg, _bind E name v2 g1 = (Raise (Exn ValueError msg), g1))
  /\ (forall (bad : string) (v : value) (g' : gui),
         isidentifier bad = false ->
         exists msg, _bind E bad v g' = (Raise (Exn ValueError msg), g')).
Proof.
  intros Hok g1. split.
  - subst g1. revert Hok. rewrite (_bind_spec name v1 g).
    destruct (hasattr_self E g name); [discriminate|].
    destruct (isidentifier name); [|discriminate]. simpl. intros _.
    rewrite _bind_spec, hasattr_bind_result. eauto.
  - intros bad v g' Hbad. rewrite _bind_spec, Hbad. simpl.
    destruct (hasattr_self E g' bad); eauto.
Qed.

(** C10. Through [bind_var_val], binding a name that the engine already has
    returns [False] without raising and leaves the whole state, hence every
    scope, unchanged. *)
Theorem bind_var_val_bound_noop (var_name : string) (val : value) (g : gui) :
  hasattr_self E g var_name = true ->
  bind_var_val E var_name val g = (Ok false, g).
Proof.
  intros H. unfold bind_var_val, bind, gets. rewrite H. reflexivity.
Qed.

Lemma global_scope_set_scope (sc : gmap string value) (g : gui) :
  global_scope (set_scope sc g) = global_scope g
  \/ (global_scope (set_scope sc g) = sc /\ get_scope g = global_scope g).
Proof.
  unfold set_scope, get_scope.
  destruct (multi_user g); [destruct (request_sid g)|]; simpl; auto.
Qed.

(** A successful bind copies the value into a global scope that has no
    binding for the name. *)
Lemma bind_result_global_fresh (name : string) (val : value) (g : gui) :
  global_scope g !! name = None ->
  global_scope (bind_result name val g) !! name = Some (bound_value val).
Proof.
  intros Hnone. unfold bind_result.
  destruct (global_scope_set_scope (<[name := bound_value val]> (get_scope g)) g)
    as [Heq | [Heq _]]; simpl; rewrite Heq.
  - rewrite Hnone. simpl. apply lookup_insert_eq.
  - rewrite lookup_insert_eq. simpl. rewrite Heq. apply lookup_insert_eq.
Qed.

(** A bind leaves alone a global binding that an earlier bind installed. *)
Lemma bind_result_global_kept (name : string) (val w : value) (g : gui) :
  get_scope g !! name = None ->
  global_scope g !! name = Some w ->
  global_scope (bind_result name val g) !! name = Some w.
Proof.
  intros Hact Hglob. unfold bind_result.
  set (g1 := set_scope _ g).
  assert (Hg1 : global_scope g1 = global_scope g).
  { destruct (global_scope_set_scope (<[name := bound_value val]> (get_scope g)) g)
      as [Heq | [_ Heq]]; [exact Heq | congruence]. }
  simpl. rewrite Hg1, Hglob. simpl. rewrite Hg1. exact Hglob.
Qed.

(** C9. First bind wins for the defaults: a bind never changes the value
    that the global scope holds for a name bound earlier; a bind that goes
    through stores the new value in the scope of the binding session, and
    copies it into the global scope when this one has no binding for the
    name. *)
Theorem bind_global_first_wins (name : string) (val : value) (g : gui) :
  let r := _bind E name val g in
  (forall w : value,
      name ∈ bound_props g -> global_scope g !! name = Some w ->
      global_scope (snd r) !! name = Some w)
  /\ (fst r = Ok tt ->
      get_scope (snd r) !! name = Some (bound_value val)
      /\ (global_scope g !! name = None ->
          global_scope (snd r) !! name = Some (bound_value val))).
Proof.
  intros r. subst r. rewrite _bind_spec.
  destruct (hasattr_self E g name) eqn:Hhas; [split; [auto | discriminate]|].
  destruct (isidentifier name); simpl; [|split; [auto | discriminate]].
  split.
  - intros w Hin Hglob. apply bind_result_global_kept; [|exact Hglob].
    revert Hhas. unfold hasattr_self, getattr_self, _get_data_scope, getattr_scope.
    rewrite decide_True by exact Hin.
    destruct (get_scope g !! name); [discriminate | reflexivity].
  - intros _. split; [apply get_scope_bind_result | apply bind_result_global_fresh].
Qed.

(** *** Frame rules of the monad *)

Section Keeps.

Context {X : Type} (obs : gui -> X).

Lemma keeps_ret {A} (a : A) : keeps obs (ret a).
Proof. intros g. reflexivity. Qed.

Lemma keeps_raise {A} (e : exn) : keeps obs (@raise A e).
Proof. intros g. reflexivity. Qed.

Lemma keeps_lift {A} (o : outcome A) : keeps obs (lift o).
Proof. intros g. reflexivity. Qed.

Lemma keeps_gets {A} (f : gui -> A) : keeps obs (gets f).
Proof. intros g. reflexivity. Qed.

Lemma keeps_bind {A B} (m : M A) (k : A -> M B) :
  keeps obs m -> (forall a, keeps obs (k a)) -> keeps obs (bind m k).
Proof.
  intros Hm Hk g. unfold bind. specialize (Hm g).
  destruct (m g) as [[a|e] g']; simpl in *; [|exact Hm].
  rewrite Hk. exact Hm.
Qed.

Lemma keeps_try_except {A} (m : M A) (catches : exn -> bool) (h : exn -> M A) :
  keeps obs m -> (forall e, keeps obs (h e)) -> keeps obs (try_except m catches h).
Proof.
  intros Hm Hh g. unfold try_except. specialize (Hm g).
  destruct (m g) as [[a|e] g']; simpl in *; [exact Hm|].
  destruct (catches e); simpl; [rewrite Hh|]; exact Hm.
Qed.

Lemma keeps_modify (f : gui -> gui) :
  (forall g, obs (f g) = obs g) -> keeps obs (modify f).
Proof. intros H g. apply H. Qed.

End Keeps.

(** The send path only touches the transport, the warnings and whatever a
    broadcast reaches. *)
Section KeepsSend.

Context {X : Type} (obs : gui -> X).
Hypothesis obs_warnings : forall ws g, obs (with_warnings_log ws g) = obs g.
Hypothesis obs_emitted : forall ms g, obs (with_emitted ms g) = obs g.
Hypothesis obs_broadcast :
  forall name v g, obs (with_client_scopes (broadcast_data E name v g) g) = obs g.

Lemma keeps_warn (w : warning) : keeps obs (warn w).
Proof. apply keeps_modify. intros g. apply obs_warnings. Qed.

Lemma keeps_send_ws (d : list (string * value)) :
  keeps obs (_send_ws_update_with_dict E d).
Proof.
  unfold _send_ws_update_with_dict. apply keeps_try_except.
  - apply keeps_bind; [apply keeps_gets|]. intros to.
    destruct (ws_emit_error E _); [apply keeps_raise|].
    apply keeps_modify. intros g. apply obs_emitted.
  - intros e. apply keeps_warn.
Qed.

Lemma keeps_as_name (v : value) : keeps obs (as_name v).
Proof. destruct v; first [apply keeps_ret | apply keeps_raise]. Qed.

Lemma keeps_send_loop (vars : list value) (ws_dict : list (string * value)) :
  keeps obs (send_var_list_loop E vars ws_dict).
Proof.
  revert ws_dict. induction vars as [|v rest IH]; intros ws_dict; simpl.
  - apply keeps_ret.
  - apply keeps_bind; [apply keeps_as_name|]. intros _var.
    apply keeps_bind; [apply keeps_gets|]. intros scope.
    apply keeps_bind; [apply keeps_lift|]. intros newvalue.
    apply keeps_bind; [apply keeps_modify; intros g; apply obs_broadcast|]. intros _.
    apply keeps_bind;
      [destruct (isinstance_datetime newvalue); [apply keeps_lift | apply keeps_ret]|].
    intros newvalue'.
    destruct (_is_data_access E _var newvalue'); [apply IH|].
    destruct (isinstance_list newvalue').
    + apply keeps_bind; [apply keeps_lift|]. intros new_list. apply IH.
    + apply keeps_bind; [apply keeps_lift|]. intros adapted.
      destruct (isinstance_MapDictionary adapted); apply IH.
Qed.

Lemma keeps_send_var_list (vars : list value) :
  keeps obs (__send_var_list_update E vars).
Proof.
  unfold __send_var_list_update.
  apply keeps_bind; [apply keeps_send_loop|].
  intros d. apply keeps_send_ws.
Qed.

End KeepsSend.

Lemma keeps_scope_send_var_list (Hbc : broadcast_spares_active E) (vars : list value) :
  keeps get_scope (__send_var_list_update E vars).
Proof. apply keeps_send_var_list; [reflexivity | reflexivity | exact Hbc]. Qed.

Lemma keeps_calls_send_var_list (vars : list value) :
  keeps calls (__send_var_list_update E vars).
Proof. apply keeps_send_var_list; reflexivity. Qed.

(** What [invoke] runs the callee on. *)
Lemma invoke_spec (f : value) (args : list value) (g : gui) :
  invoke E f args g = call_value E f args (with_calls (calls g ++ [(f, args)]) g).
Proof. reflexivity. Qed.

(** C4. An UPDATE handled with a false [propagate] leaves the active scope
    as it was, for the variable of the message and for every other one: the
    engine writes nothing (given that neither the observers of a broadcast
    nor the update callback of the application write it). *)
Theorem update_without_propagate_keeps_scope
  (var_name val propagate : value) (g : gui) :
  broadcast_spares_active E ->
  (forall args, keeps get_scope (call_value E (_update_function g) args)) ->
  py_truthy propagate = false ->
  get_scope (snd (_front_end_update E var_name val propagate g)) = get_scope g.
Proof.
  intros Hbc Hcb Hprop.
  unfold _front_end_update, bind.
  destruct (as_name var_name g) as [[name|e] g0] eqn:Hname.
  2:{ destruct var_name; inversion Hname; reflexivity. }
  assert (g0 = g) by (destruct var_name; inversion Hname; reflexivity). subst g0.
  unfold gets, lift.
  destruct (attrgetter E _ _) as [currentvalue|e]; [|reflexivity].
  destruct (coerce_value E name currentvalue val) as [[val'|]|e]; try reflexivity.
  unfold _update_var. rewrite Hprop. unfold bind at 1. unfold ret at 1.
  unfold bind, gets.
  destruct (py_truthy (_update_function g)) eqn:Hf.
  - rewrite invoke_spec.
    set (gr := with_calls (calls g ++ [(_update_function g, [VSelf; VStr name; val'])]) g).
    specialize (Hcb [VSelf; VStr name; val'] gr).
    change (get_scope gr) with (get_scope g) in Hcb.
    destruct (call_value E (_update_function g) _ gr) as [[[]|e] g1]; simpl in *.
    + rewrite keeps_scope_send_var_list by exact Hbc. exact Hcb.
    + exact Hcb.
  - unfold ret. apply keeps_scope_send_var_list, Hbc.
Qed.

Lemma calls_set_scope sc g : calls (set_scope sc g) = calls g.
Proof. unfold set_scope. destruct (multi_user g); [destruct (request_sid g)|]; reflexivity. Qed.

Lemma _update_function_set_scope sc g :
  _update_function (set_scope sc g) = _update_function g.
Proof. unfold set_scope. destruct (multi_user g); [destruct (request_sid g)|]; reflexivity. Qed.

(** The log of calls that [_update_var] leaves is the one its single call of
    the update callback leaves, started on a log that holds what was there
    and that call. *)
Lemma _update_var_calls (name : string) (val propagate : value) (g : gui) :
  py_truthy (_update_function g) = true ->
  (py_truthy propagate = true -> write_succeeds E name val g = true) ->
  exists g1 : gui,
    calls g1 = calls g
    /\ (py_truthy propagate = false -> g1 = g)
    /\ calls (snd (_update_var E name val propagate g))
       = calls (snd (call_value E (_update_function g) [VSelf; VStr name; val]
                       (with_calls
                          (calls g ++ [(_update_function g, [VSelf; VStr name; val])]) g1))).
Proof.
  intros Hf Hw.
  assert (Hfinish : forall (g1 : gui) (vars : list string),
             calls g1 = calls g -> _update_function g1 = _update_function g ->
             calls (snd (bind (gets _update_function) (fun f =>
                      bind (if py_truthy f then invoke E f [VSelf; VStr name; val] else ret tt)
                           (fun _ => __send_var_list_update E (map VStr vars))) g1))
             = calls (snd (call_value E (_update_function g) [VSelf; VStr name; val]
                             (with_calls
                                (calls g ++ [(_update_function g, [VSelf; VStr name; val])])
                                g1)))).
  { intros g1 vars Hc Hu. mstep. rewrite Hu, Hf, invoke_spec, Hc.
    destruct (call_value E (_update_function g) _ _) as [[[]|e] g2]; simpl.
    - apply keeps_calls_send_var_list.
    - reflexivity. }
  unfold _update_var.
  destruct (py_truthy propagate) eqn:Hp.
  - specialize (Hw eq_refl). unfold write_succeeds in Hw.
    unfold bind at 1. unfold bind at 1. unfold gets at 1. unfold _get_data_scope at 1.
    unfold bind at 1. unfold lift at 1.
    destruct (attrsetter E (get_scope g) (get_hash_from_expr E name) val)
      as [scope'|e]; [|discriminate].
    unfold bind at 1. unfold modify at 1.
    destruct (String.eqb name (get_hash_from_expr E name)).
    + unfold bind at 1. unfold gets at 1. unfold _get_data_scope at 1.
      rewrite get_scope_set_scope.
      destruct (re_evaluate_expr E name scope') as [[deps|e] scope'']; [|discriminate].
      unfold bind at 1. unfold modify at 1. unfold bind at 1. unfold lift at 1.
      unfold ret at 1.
      eexists. split; [|split; [discriminate|]];
        [|apply Hfinish; rewrite ?calls_set_scope, ?_update_function_set_scope; reflexivity].
      rewrite !calls_set_scope. reflexivity.
    + unfold ret at 1.
      eexists. split; [|split; [discriminate|]];
        [|apply Hfinish; rewrite ?calls_set_scope, ?_update_function_set_scope; reflexivity].
      rewrite !calls_set_scope. reflexivity.
  - unfold bind at 1. unfold ret at 1.
    exists g. split; [reflexivity|]. split; [reflexivity|]. apply Hfinish; reflexivity.
Qed.

(** C3. With an update callback registered, an inbound UPDATE whose value
    passes the coercion (and whose write, when [propagate] holds, goes
    through) makes the engine call the callback, with the engine, the name
    as received and the value after coercion, whether [propagate] holds or
    not.  The engine makes this one call and no other: the log it leaves is
    the one that the callback leaves when started on the log extended by
    that call; so a callback that makes no engine call of its own is called
    exactly once. *)
Theorem update_callback_called_once_with_coerced_value
  (name : string) (val propagate currentvalue val' : value) (g : gui) :
  attrgetter E (get_hash_from_expr E name) (get_scope g) = Ok currentvalue ->
  coerce_value E name currentvalue val = Ok (Some val') ->
  py_truthy (_update_function g) = true ->
  (py_truthy propagate = true -> write_succeeds E name val' g = true) ->
  let f := _update_function g in
  let args := [VSelf; VStr name; val'] in
  let after_update := snd (_front_end_update E (VStr name) val propagate g) in
  (exists g1 : gui,
      calls g1 = calls g
      /\ (py_truthy propagate = false -> g1 = g)
      /\ calls after_update
         = calls (snd (call_value E f args (with_calls (calls g ++ [(f, args)]) g1))))
  /\ (keeps calls (call_value E f args) ->
      calls after_update = (calls g ++ [(f, args)])%list).
Proof.
  intros Hcur Hco Hf Hw f args after_update.
  assert (Hrun : after_update = snd (_update_var E name val' propagate g)).
  { subst after_update. unfold _front_end_update, as_name. mstep. unfold _get_data_scope.
    rewrite Hcur, Hco. reflexivity. }
  destruct (_update_var_calls name val' propagate g Hf Hw) as (g1 & Hc & Hsame & Hlog).
  split.
  - exists g1. rewrite Hrun. auto.
  - intros Hkeep. rewrite Hrun, Hlog. apply Hkeep.
Qed.

(** *** Actions *)

(** What [__call_function_with_args] does with a plain function: one call
    with the arguments picked by the number of parameters, a warning in
    place of the exception if the call raises, a warning and no call if no
    signature fits.  It never raises. *)
Lemma __call_function_with_args_spec (fn : pyfunc) (id action payload : value) (g : gui) :
  __call_function_with_args E (VFunc fn) id action payload g =
    match call_args (co_argcount fn) id action payload with
    | Some args =>
        let c := call_value E (VFunc fn) args
                   (with_calls (calls g ++ [(VFunc fn, args)]) g) in
        match fst c with
        | Ok _ => (Ok true, snd c)
        | Raise e =>
            (Ok false,
             with_warnings_log (warnings_log (snd c) ++ [WActionException (fn_name fn) e])
               (snd c))
        end
    | None =>
        (Ok false, with_warnings_log (warnings_log g ++ [WWrongSignature (fn_name fn)]) g)
    end.
Proof.
  unfold __call_function_with_args, call_args, try_except, warn.
  destruct (co_argcount fn) as [|[|[|[|[|n]]]]]; cbn [Nat.eqb andb];
    try destruct (is_not_None action); cbn [andb];
    unfold bind at 1; rewrite ?invoke_spec;
    try (destruct (call_value E (VFunc fn) _ _) as [[[]|e] g']; reflexivity);
    reflexivity.
Qed.

Lemma __call_function_with_args_total (f id action payload : value) (g : gui) :
  exists b, fst (__call_function_with_args E f id action payload g) = Ok b.
Proof.
  destruct f; try (exists false; reflexivity).
  rewrite __call_function_with_args_spec.
  destruct (call_args _ _ _ _); [|eauto].
  simpl. destruct (fst (call_value E _ _ _)); eauto.
Qed.

(** C6. The action dispatcher lets no exception of a callback out: it
    returns normally, or raises the [TypeError] of [hasattr] on an action
    name that is not a string, before anything is called or changed; and a
    call that raises, be it to an attribute of the engine or to the global
    action callback, is turned into a logged warning and the result
    [False]. *)
Theorem action_callback_exceptions_are_caught (id payload : value) (g : gui) :
  let r := _on_action E id payload g in
  (fst r = Ok tt \/ (r = (Raise hasattr_TypeError, g)
                     /\ isinstance_str (action_of E payload) = false))
  /\ (forall (fn : pyfunc) (action : value) (args : list value) (e : exn) (g0 g' : gui),
        call_args (co_argcount fn) id action payload = Some args ->
        call_value E (VFunc fn) args (with_calls (calls g0 ++ [(VFunc fn, args)]) g0)
        = (Raise e, g') ->
        __call_function_with_args E (VFunc fn) id action payload g0
        = (Ok false,
           with_warnings_log (warnings_log g' ++ [WActionException (fn_name fn) e]) g')).
Proof.
  intros r. split.
  - subst r. unfold _on_action.
    assert (Hglobal : forall g1, fst (bind (gets _action_function) (fun f =>
              if py_truthy f
              then bind (__call_function_with_args E f id (action_of E payload) payload)
                        (fun _ => ret tt)
              else ret tt) g1) = Ok tt).
    { intros g1. mstep. destruct (py_truthy (_action_function g1)); [|reflexivity].
      destruct (__call_function_with_args_total (_action_function g1) id
                  (action_of E payload) payload g1) as [b Hb].
      destruct (__call_function_with_args E _ _ _ _ g1) as [[b'|e] g2]; simpl in *;
        [reflexivity | discriminate]. }
    destruct (py_truthy (action_of E payload)) eqn:Ht.
    + destruct (action_of E payload) as [| | | | |s| | | | | | |] eqn:Hact;
        try (right; split; reflexivity).
      left. unfold bind at 1. unfold bind at 1. unfold bind at 1. unfold ret at 1.
      unfold gets at 1.
      destruct (hasattr_self E g s) eqn:Hhas.
      * unfold bind at 1. unfold hasattr_self in Hhas.
        destruct (getattr_self E g s) as [f|e]; [|discriminate].
        destruct (__call_function_with_args_total f id VNone payload g) as [b Hb].
        destruct (__call_function_with_args E f id VNone payload g) as [[b'|e] g2];
          simpl in Hb; [|discriminate].
        destruct b'; [reflexivity | apply Hglobal].
      * unfold ret at 1. apply Hglobal.
    + left. unfold bind at 1. unfold ret at 1. apply Hglobal.
  - intros fn action args e g0 g' Hargs Hcall.
    rewrite __call_function_with_args_spec, Hargs, Hcall. reflexivity.
Qed.



(** *** Routes *)

Lemma routes_add_page (name renderer style : value) (g : gui) :
  NoDup (routes g) -> NoDup (routes (snd (add_page E name renderer style g))).
Proof.
  intros Hnd. unfold add_page.
  destruct name as [| | | | |n| | | | | | |]; try exact Hnd.
  destruct (RE_PAGE_NAME_match n); [|exact Hnd]. simpl.
  destruct (startswith_slash n); [exact Hnd|].
  mstep. destruct (bool_decide (n ∈ routes g)) eqn:Hin; [exact Hnd|].
  destruct (isinstance_PageRenderer E renderer); simpl; [|exact Hnd].
  apply bool_decide_eq_false in Hin.
  apply NoDup_app. split; [exact Hnd|]. split.
  - intros x Hx Hx'. apply list_elem_of_singleton in Hx'. subst x. contradiction.
  - apply NoDup_singleton.
Qed.

Lemma routes_add_partial (renderer : value) (g : gui) :
  routes (snd (add_partial E renderer g)) = routes g.
Proof.
  unfold add_partial, warn. mstep.
  destruct (_ || _); destruct (isinstance_PageRenderer E renderer); reflexivity.
Qed.

(** C8. Page routes stay pairwise distinct through every sequence of
    [add_page] and [add_partial] calls, and [add_page] raises, changing
    nothing, on a name that is a page route already.  It consults nothing
    but the page routes: a name of the right shape that is no page route is
    registered with a page renderer, whatever the partial routes are.
    [add_partial] never refuses a route: with a page renderer it registers
    the partial under its fresh route and returns it, having logged one
    warning when that route was a partial route or a page route already. *)
Theorem page_routes_stay_distinct (cs : list route_call) (g : gui) :
  NoDup (routes g) ->
  NoDup (routes (run_route_calls E cs g))
  /\ (forall (name : string) (renderer style : value),
        name ∈ routes g ->
        exists e, add_page E (VStr name) renderer style g = (Raise e, g))
  /\ (forall (name : string) (renderer style : value),
        RE_PAGE_NAME_match name = true ->
        startswith_slash name = false ->
        name ∉ routes g ->
        isinstance_PageRenderer E renderer = true ->
        add_page E (VStr name) renderer style g
        = (Ok tt, with_pages (routes g ++ [name]) (pages g ++ [Page name renderer style]) g))
  /\ (forall renderer : value,
        isinstance_PageRenderer E renderer = true ->
        let route := new_partial_route E g in
        let new_partial := Page route renderer VNone in
        let g1 := if bool_decide (route ∈ partial_routes g) || bool_decide (route ∈ routes g)
                  then with_warnings_log (warnings_log g ++ [WPartialDefined route]) g
                  else g in
        add_partial E renderer g
        = (Ok new_partial,
           with_partials (partial_routes g ++ [route]) (partials g ++ [new_partial]) g1)).
Proof.
  intros Hnd. split; [|split; [|split]].
  - revert g Hnd. induction cs as [|c rest IH]; intros g Hnd; simpl; [exact Hnd|].
    apply IH. destruct c as [name renderer style | renderer]; simpl.
    + apply routes_add_page, Hnd.
    + rewrite routes_add_partial. exact Hnd.
  - intros name renderer style Hin. unfold add_page.
    destruct (RE_PAGE_NAME_match name); simpl; [|eauto].
    destruct (startswith_slash name); [eauto|].
    mstep. rewrite bool_decide_eq_true_2 by exact Hin. eauto.
  - intros name renderer style Hshape Hslash Hnew Hrend. unfold add_page.
    rewrite Hshape, Hslash. simpl. mstep.
    rewrite bool_decide_eq_false_2 by exact Hnew. rewrite Hrend. reflexivity.
  - intros renderer Hrend route new_partial g1. subst route new_partial g1.
    unfold add_partial. mstep. rewrite Hrend. unfold warn. mstep.
    destruct (bool_decide (new_partial_route E g ∈ partial_routes g)
              || bool_decide (new_partial_route E g ∈ routes g)); reflexivity.
Qed.

(** *** The dispatcher *)

Lemma try_except_raise {A} (m : M A) (catches : exn -> bool) (h : exn -> M A)
  (g : gui) (e : exn) :
  (forall e0 g0, exists a, fst (h e0 g0) = Ok a) ->
  fst (try_except m catches h g) = Raise e -> catches e = false.
Proof.
  intros Hh. unfold try_except.
  destruct (m g) as [[a|e0] g']; simpl; [discriminate|].
  destruct (catches e0) eqn:Hc.
  - destruct (Hh e0 g') as [a Ha]. rewrite Ha. discriminate.
  - simpl. intros [= <-]. exact Hc.
Qed.

(** C5. The dispatcher drops a message of an unknown kind silently: it
    returns normally and leaves the state, warnings included, as it was.
    Handling a message of a known kind, it lets no [TypeError] and no
    [KeyError] out; so an UPDATE without a name is dropped with a warning
    and a normal return.  Whatever the kind, the result is that of the
    statements under [try:], except that a [TypeError] or a [KeyError] they
    raise is replaced by a normal return with one warning appended to the
    log of the state they reached: "decoding failed" for a [TypeError],
    "can't access" for a [KeyError]; any other exception goes on to the
    caller.  So a REQUEST_UPDATE whose payload is no container is answered
    by the "decoding failed" warning, on an otherwise unchanged state. *)
Theorem manage_message_drops (msg_type : string) (message : list (string * value))
  (g : gui) :
  let r := _manage_message E msg_type message g in
  let body := _manage_message_try E msg_type message g in
  ((forall t, t ∈ inbound_kinds -> msg_type <> WsType_value E t) -> r = (Ok tt, g))
  /\ (forall e, fst r = Raise e -> exn_cls e <> TypeError /\ exn_cls e <> KeyError)
  /\ (msg_type = WsType_value E UPDATE -> dict_get message "name" = None ->
      r = (Ok tt, with_warnings_log
                    (warnings_log g ++ [WCantAccess message (Exn KeyError "name")]) g))
  /\ r = match fst body with
         | Ok _ => body
         | Raise e =>
             match exn_cls e with
             | TypeError =>
                 (Ok tt, with_warnings_log
                           (warnings_log (snd body) ++ [WDecodingFailed message e])
                           (snd body))
             | KeyError =>
                 (Ok tt, with_warnings_log
                           (warnings_log (snd body) ++ [WCantAccess message e])
                           (snd body))
             | _ => body
             end
         end
  /\ (msg_type = WsType_value E REQUEST_UPDATE ->
      (forall t, t ∈ [UPDATE; ACTION; DATA_UPDATE] -> msg_type <> WsType_value E t) ->
      forall payload,
        dict_get message "payload" = Some payload ->
        match payload with
        | VNone | VBool _ | VInt _ | VFloat _ => True
        | _ => False
        end ->
        r = (Ok tt, with_warnings_log
                      (warnings_log g
                       ++ [WDecodingFailed message (Exn TypeError "argument is not iterable")])
                      g)).
Proof.
  intros r body. subst r body. split; [|split; [|split; [|split]]].
  - intros Hkind. unfold _manage_message, _manage_message_try, try_except.
    rewrite !(proj2 (String.eqb_neq _ _)); [reflexivity | | | |];
      apply Hkind; unfold inbound_kinds; set_solver.
  - intros e He. apply try_except_raise in He.
    + apply orb_false_elim in He as [H1 H2].
      unfold except_TypeError, except_KeyError in *.
      split; intros Hc; rewrite Hc in *; discriminate.
    + intros e0 g0. exists tt. destruct (except_TypeError e0); reflexivity.
  - intros -> Hname. unfold _manage_message, _manage_message_try, try_except.
    rewrite String.eqb_refl. unfold dict_item at 1. rewrite Hname. reflexivity.
  - unfold _manage_message, try_except.
    destruct (_manage_message_try E msg_type message g) as [[[]|e] g']; simpl;
      [reflexivity|].
    unfold except_TypeError, except_KeyError.
    destruct (exn_cls e); reflexivity.
  - intros Hreq Hother payload Hp Hscalar.
    unfold _manage_message, _manage_message_try, try_except.
    rewrite !(proj2 (String.eqb_neq _ _)) by (apply Hother; set_solver).
    rewrite (proj2 (String.eqb_eq _ _) Hreq).
    unfold dict_item. rewrite Hp.
    destruct payload; try contradiction; reflexivity.
Qed.


(** *** The [count] scenario *)

(** One turn of the send loop on a scalar that no accessor claims. *)
Lemma send_loop_scalar_step (n : string) (v v' : value) (rest : list value)
  (d : list (string * value)) (g : gui) :
  attrgetter E n (get_scope g) = Ok v ->
  isinstance_datetime v = false ->
  _is_data_access E n v = false ->
  isinstance_list v = false ->
  _run_adapter_for_var E n v None true = Ok v' ->
  isinstance_MapDictionary v' = false ->
  send_var_list_loop E (VStr n :: rest) d g
  = send_var_list_loop E rest (dict_set n v' d)
      (with_client_scopes (broadcast_data E n v g) g).
Proof.
  intros Hget Hdt Hda Hl Had Hmd.
  cbn [send_var_list_loop as_name]. mstep. unfold _get_data_scope.
  rewrite Hget, Hdt, Hda, Hl, Had, Hmd. reflexivity.
Qed.

Lemma emitted_set_scope sc g : emitted (set_scope sc g) = emitted g.
Proof. unfold set_scope. destruct (multi_user g); [destruct (request_sid g)|]; reflexivity. Qed.

Lemma _get_ws_receiver_set_scope sc g :
  _get_ws_receiver (set_scope sc g) = _get_ws_receiver g.
Proof. unfold set_scope. destruct (multi_user g); [destruct (request_sid g)|]; reflexivity. Qed.

Lemma attrgetter_count (sc : gmap string value) (v : value) :
  sc !! "count" = Some v -> attrgetter E "count" sc = Ok v.
Proof.
  intros H. unfold attrgetter.
  change (split_dots "" (list_ascii_of_string "count")) with ["count"].
  cbn [fold_left]. unfold getattr_scope. rewrite H. reflexivity.
Qed.

Lemma send_count_update (vars : list string) (g : gui) :
  broadcast_spares_active E ->
  _is_data_access E "count" (VInt 5) = false ->
  _run_adapter_for_var E "count" (VInt 5) None true = Ok (VInt 5) ->
  get_client_var_name E "count" = "count" ->
  (forall m, ws_emit_error E m = None) ->
  get_scope g !! "count" = Some (VInt 5) ->
  vars = ["count"] \/ vars = ["count"; "count"] ->
  exists g', __send_var_list_update E (map VStr vars) g = (Ok tt, g')
    /\ get_scope g' = get_scope g
    /\ emitted g' = (emitted g ++ [count_update (_get_ws_receiver g)])%list.
Proof.
  intros Hbc Hda Had Hname Hemit Hcount Hvars.
  assert (Hstep : forall g0 rest d,
             get_scope g0 !! "count" = Some (VInt 5) ->
             send_var_list_loop E (VStr "count" :: rest) d g0
             = send_var_list_loop E rest (dict_set "count" (VInt 5) d)
                 (with_client_scopes (broadcast_data E "count" (VInt 5) g0) g0)).
  { intros g0 rest d H0. apply send_loop_scalar_step; auto using attrgetter_count. }
  assert (Hsend : forall g0,
             _send_ws_update_with_dict E [("count", VInt 5)] g0
             = (Ok tt, with_emitted (emitted g0 ++ [count_update (_get_ws_receiver g0)]) g0)).
  { intros g0. unfold _send_ws_update_with_dict, try_except. mstep. simpl.
    rewrite Hname, Hemit. reflexivity. }
  unfold __send_var_list_update, bind.
  destruct Hvars as [-> | ->]; simpl map.
  - rewrite Hstep by exact Hcount. simpl. unfold ret. rewrite Hsend.
    eexists. split; [reflexivity|]. split; [apply Hbc | reflexivity].
  - rewrite Hstep by exact Hcount. rewrite Hstep by (rewrite Hbc; exact Hcount).
    simpl. unfold ret. rewrite Hsend.
    eexists. split; [reflexivity|]. split; [|reflexivity].
    change (get_scope (with_emitted ?m ?x)) with (get_scope x). rewrite !Hbc. reflexivity.
Qed.

Lemma _update_var_count (g : gui) :
  get_scope g !! "count" = Some (VInt 0) ->
  get_hash_from_expr E "count" = "count" ->
  (forall sc v, attrsetter E sc "count" v = Ok (<["count" := v]> sc)) ->
  (forall sc, exists deps, re_evaluate_expr E "count" sc = (Ok deps, sc)
                           /\ (deps = [] \/ deps = ["count"])) ->
  broadcast_spares_active E ->
  py_truthy (_update_function g) = false ->
  _is_data_access E "count" (VInt 5) = false ->
  _run_adapter_for_var E "count" (VInt 5) None true = Ok (VInt 5) ->
  get_client_var_name E "count" = "count" ->
  (forall m, ws_emit_error E m = None) ->
  exists g', _update_var E "count" (VInt 5) (VBool true) g = (Ok tt, g')
   /\ get_scope g' !! "count" = Some (VInt 5)
   /\ emitted g' = (emitted g ++ [count_update (_get_ws_receiver g)])%list.
Proof.
  intros Hcount Hhash Hset Hre Hbc Hnocb Hda Had Hname Hemit.
  unfold _update_var. rewrite Hhash. cbn [py_truthy String.eqb Ascii.eqb Bool.eqb].
  mstep. unfold _get_data_scope. rewrite Hset.
  set (sc5 := <["count" := VInt 5]> (get_scope g)).
  rewrite get_scope_set_scope.
  destruct (Hre sc5) as (deps & Hre' & Hdeps). rewrite Hre'.
  rewrite !_update_function_set_scope, Hnocb.
  destruct (send_count_update ("count" :: deps) (set_scope sc5 (set_scope sc5 g)))
    as (g' & Hrun & Hsc & Hem); auto.
  { rewrite get_scope_set_scope. apply lookup_insert_eq. }
  { destruct Hdeps as [-> | ->]; auto. }
  exists g'. split; [exact Hrun|]. split.
  - rewrite Hsc, get_scope_set_scope. apply lookup_insert_eq.
  - rewrite Hem, !emitted_set_scope, !_get_ws_receiver_set_scope. reflexivity.
Qed.

(** C1. With [count] bound to the int 0 in the active scope, the inbound
    message [{type: UPDATE, name: "count", payload: "5"}], which carries no
    [propagate], is handled without error: the string is coerced to the int
    5, the active scope holds 5 under [count] afterwards, and one
    MULTIPLE_UPDATE message whose payload is the entry
    [{name: "count", payload: {value: 5}}] is emitted.  The collaborators
    are in their plain configuration: [count] is its own hash and its own
    wire name, it has no dependent expression, no adapter, no data accessor
    and no update callback, and the transport is up. *)
Theorem update_count_scenario (g : gui) :
  get_scope g !! "count" = Some (VInt 0) ->
  get_hash_from_expr E "count" = "count" ->
  (forall sc v, attrsetter E sc "count" v = Ok (<["count" := v]> sc)) ->
  (forall sc, exists deps, re_evaluate_expr E "count" sc = (Ok deps, sc)
                           /\ (deps = [] \/ deps = ["count"])) ->
  broadcast_spares_active E ->
  py_truthy (_update_function g) = false ->
  _is_data_access E "count" (VInt 5) = false ->
  _run_adapter_for_var E "count" (VInt 5) None true = Ok (VInt 5) ->
  get_client_var_name E "count" = "count" ->
  (forall m, ws_emit_error E m = None) ->
  let message := [("type", VStr (WsType_value E UPDATE));
                  ("name", VStr "count"); ("payload", VStr "5")] in
  let r := _manage_message E (WsType_value E UPDATE) message g in
  fst r = Ok tt
  /\ get_scope (snd r) !! "count" = Some (VInt 5)
  /\ emitted (snd r) = (emitted g ++ [count_update (_get_ws_receiver g)])%list.
Proof.
  intros Hcount Hhash Hset Hre Hbc Hnocb Hda Had Hname Hemit message r.
  destruct (_update_var_count g) as (g' & Hrun & Hsc & Hem); auto.
  assert (Hfront : _front_end_update E (VStr "count") (VStr "5") (VBool true) g = (Ok tt, g')).
  { unfold _front_end_update, as_name. mstep. unfold _get_data_scope.
    rewrite Hhash, (attrgetter_count _ _ Hcount).
    change (coerce_value E "count" (VInt 0) (VStr "5")) with (@Ok (option value) (Some (VInt 5))).
    exact Hrun. }
  assert (Hr : r = (Ok tt, g')).
  { subst r. unfold _manage_message, _manage_message_try, try_except. rewrite String.eqb_refl.
    subst message.
    change (dict_item _ "name") with (Ok (VStr "count")).
    change (dict_item _ "payload") with (Ok (VStr "5")).
    change (dict_get _ "propagate") with (@None value).
    rewrite bool_decide_eq_false_2 by (intros [x Hx]; discriminate).
    mstep. rewrite Hfront. reflexivity. }
  rewrite Hr. auto.
Qed.

End EngineFacts.

(** ** The reference engine at work *)

Section ReferenceRuns.

Import Reference.

Lemma reference_broadcast_spares_active : broadcast_spares_active env.
Proof. intros name v g. reflexivity. Qed.

Lemma update_count_scenario_witness :
  let r := _manage_message env "UPDATE"
             [("type", VStr "UPDATE"); ("name", VStr "count"); ("payload", VStr "5")]
             g_count in
  fst r = Ok tt
  /\ get_scope (snd r) !! "count" = Some (VInt 5)
  /\ emitted (snd r) = [count_update None].
Proof.
  apply (update_count_scenario env g_count).
  - reflexivity.
  - reflexivity.
  - intros sc v. reflexivity.
  - intros sc. exists ["count"]. split; [reflexivity | right; reflexivity].
  - exact reference_broadcast_spares_active.
  - reflexivity.
  - reflexivity.
  - reflexivity.
  - reflexivity.
  - intros m. reflexivity.
Defined.

Lemma bind_twice_or_invalid_fails_witness :
  (exists msg, _bind env "count" (VInt 1) g_count = (Raise (Exn ValueError msg), g_count))
  /\ (exists msg, _bind env "2nd" (VInt 1) g_count = (Raise (Exn ValueError msg), g_count)).
Proof.
  destruct (bind_twice_or_invalid_fails env "count" (VInt 0) (VInt 1) (start false None))
    as [Htwice Hbad].
  - vm_compute. reflexivity.
  - split; [exact Htwice | apply Hbad; reflexivity].
Defined.

Lemma bind_var_val_bound_noop_witness :
  bind_var_val env "count" (VInt 9) g_count = (Ok false, g_count).
Proof. apply bind_var_val_bound_noop. vm_compute. reflexivity. Defined.

(** Two sessions of a multi-user engine bind [counter] in turn. *)
Lemma bind_global_first_wins_witness :
  let gA := after (_bind env "counter" (VInt 1)) (start true (Some "A")) in
  let gB := after (_bind env "counter" (VInt 7)) (with_request_sid (Some "B") gA) in
  global_scope gA !! "counter" = Some (VInt 1)
  /\ global_scope gB !! "counter" = Some (VInt 1)
  /\ get_scope gB !! "counter" = Some (VInt 7).
Proof.
  intros gA gB.
  destruct (bind_global_first_wins env "counter" (VInt 1) (start true (Some "A")))
    as [_ HA].
  destruct (bind_global_first_wins env "counter" (VInt 7) (with_request_sid (Some "B") gA))
    as [Hkeep HB].
  split; [apply HA; reflexivity|]. split.
  - apply Hkeep; [apply (bool_decide_unpack _); vm_compute; exact I | reflexivity].
  - apply HB. reflexivity.
Defined.

Lemma update_without_propagate_keeps_scope_witness :
  get_scope (snd (_front_end_update env (VStr "count") (VStr "5") (VBool false) g_watched))
  = get_scope g_watched.
Proof.
  apply update_without_propagate_keeps_scope.
  - exact reference_broadcast_spares_active.
  - intros args g. reflexivity.
  - reflexivity.
Defined.

Lemma update_callback_called_once_with_coerced_value_witness :
  calls (snd (_front_end_update env (VStr "count") (VStr "5") (VBool true) g_watched))
  = [(on_change, [VSelf; VStr "count"; VInt 5])]
  /\ calls (snd (_front_end_update env (VStr "count") (VStr "5") (VBool false) g_watched))
     = [(on_change, [VSelf; VStr "count"; VInt 5])].
Proof.
  split.
  - apply (update_callback_called_once_with_coerced_value env "count" (VStr "5")
             (VBool true) (VInt 0) (VInt 5) g_watched); try reflexivity.
    intros g0. reflexivity.
  - apply (update_callback_called_once_with_coerced_value env "count" (VStr "5")
             (VBool false) (VInt 0) (VInt 5) g_watched); try reflexivity.
    intros g0. reflexivity.
Defined.

(** The callback sees the int 5, never the string ["5"] that came in. *)
Lemma update_callback_raw_value_counterexample :
  let r := _manage_message env "UPDATE"
             [("type", VStr "UPDATE"); ("name", VStr "count"); ("payload", VStr "5")]
             g_watched in
  fst r = Ok tt
  /\ calls (snd r) = [(on_change, [VSelf; VStr "count"; VInt 5])]
  /\ ~ In (on_change, [VSelf; VStr "count"; VStr "5"]) (calls (snd r)).
Proof.
  vm_compute. split; [reflexivity|]. split; [reflexivity|].
  intros [H|[]]. discriminate H.
Qed.

(** A message of an unknown kind is dropped without any warning. *)
Lemma manage_message_unknown_kind_counterexample :
  _manage_message env "BOGUS" [("type", VStr "BOGUS")] g_count = (Ok tt, g_count)
  /\ warnings_log g_count = [].
Proof. split; reflexivity. Qed.

(** An uncoercible string leaves the dispatcher as a [ValueError]. *)
Lemma manage_message_uncoercible_raises :
  _manage_message env "UPDATE"
    [("type", VStr "UPDATE"); ("name", VStr "count"); ("payload", VStr "abc")] g_count
  = (Raise (Exn ValueError "invalid literal for int() with base 10: 'abc'"), g_count).
Proof. reflexivity. Qed.

(** A [TypeError] raised by the update callback is caught as well: by then
    the scope holds the new value, and it keeps it. *)
Lemma manage_message_late_TypeError :
  let g := after (on_update (VInt 1)) g_count in
  let message := [("type", VStr "UPDATE"); ("name", VStr "count"); ("payload", VStr "5")] in
  let r := _manage_message env "UPDATE" message g in
  attrgetter env "count" (_get_data_scope g) = Ok (VInt 0)
  /\ fst r = Ok tt
  /\ attrgetter env "count" (_get_data_scope (snd r)) = Ok (VInt 5)
  /\ warnings_log (snd r)
     = [WDecodingFailed message (Exn TypeError "object is not callable")].
Proof. vm_compute. repeat split. Qed.

Lemma manage_message_drops_witness :
  _manage_message env "BOGUS" [("type", VStr "BOGUS")] g_count = (Ok tt, g_count)
  /\ _manage_message env "UPDATE" [("type", VStr "UPDATE"); ("payload", VStr "5")] g_count
     = (Ok tt, with_warnings_log
                 [WCantAccess [("type", VStr "UPDATE"); ("payload", VStr "5")]
                    (Exn KeyError "name")] g_count)
  /\ _manage_message env "REQUEST_UPDATE" [("type", VStr "REQUEST_UPDATE"); ("payload", VInt 5)] g_count
     = (Ok tt, with_warnings_log
                 [WDecodingFailed [("type", VStr "REQUEST_UPDATE"); ("payload", VInt 5)]
                    (Exn TypeError "argument is not iterable")] g_count).
Proof.
  split; [|split].
  - apply (proj1 (manage_message_drops env "BOGUS" [("type", VStr "BOGUS")] g_count)).
    intros t Ht. unfold inbound_kinds in Ht.
    repeat (apply elem_of_cons in Ht as [-> | Ht]; [discriminate|]).
    by apply elem_of_nil in Ht.
  - apply (proj1 (proj2 (proj2 (manage_message_drops env "UPDATE"
             [("type", VStr "UPDATE"); ("payload", VStr "5")] g_count)))); reflexivity.
  - apply (proj2 (proj2 (proj2 (proj2 (manage_message_drops env "REQUEST_UPDATE"
             [("type", VStr "REQUEST_UPDATE"); ("payload", VInt 5)] g_count))))
             eq_refl) with (payload := VInt 5); [|reflexivity|exact I].
    intros t Ht.
    repeat (apply elem_of_cons in Ht as [-> | Ht]; [discriminate|]).
    by apply elem_of_nil in Ht.
Defined.

(** The global action callback raises: a warning, a normal return. *)
Lemma action_callback_exceptions_are_caught_witness :
  _manage_message env "ACTION" [("name", VStr "c1"); ("payload", VStr "do_it")] g_failing
  = (Ok tt,
     with_warnings_log [WActionException "failing" (Exn ValueError "boom")]
       (with_calls [(VFunc failing, [VSelf; VStr "c1"; VStr "do_it"])] g_failing))
  /\ __call_function_with_args env (VFunc failing) (VStr "c1") (VStr "do_it") (VStr "do_it")
       g_failing
     = (Ok false,
        with_warnings_log [WActionException "failing" (Exn ValueError "boom")]
          (with_calls [(VFunc failing, [VSelf; VStr "c1"; VStr "do_it"])] g_failing)).
Proof.
  split; [reflexivity|].
  apply (proj2 (action_callback_exceptions_are_caught env (VStr "c1") (VStr "do_it")
                  g_failing) failing (VStr "do_it") [VSelf; VStr "c1"; VStr "do_it"]
               (Exn ValueError "boom") g_failing
               (with_calls [(VFunc failing, [VSelf; VStr "c1"; VStr "do_it"])] g_failing));
    reflexivity.
Defined.



Lemma page_routes_stay_distinct_witness :
  NoDup (routes (run_route_calls env
                   [AddPage (VStr "docs") renderer0 (VStr ""); AddPartial renderer0;
                    AddPage (VStr "home") renderer0 (VStr "")] g_home))
  /\ (exists e, add_page env (VStr "home") renderer0 (VStr "") g_home = (Raise e, g_home))
  /\ add_page env (VStr "docs") renderer0 (VStr "") g_home
     = (Ok tt, with_pages ["home"; "docs"]
                 [Page "home" renderer0 (VStr ""); Page "docs" renderer0 (VStr "")] g_home)
  /\ (let g := after (add_page env (VStr "TaiPy_partials_0") renderer0 (VStr ""))
                  (start false None) in
      add_partial env renderer0 g
      = (Ok (Page "TaiPy_partials_0" renderer0 VNone),
         with_partials ["TaiPy_partials_0"] [Page "TaiPy_partials_0" renderer0 VNone]
           (with_warnings_log [WPartialDefined "TaiPy_partials_0"] g))).
Proof.
  destruct (page_routes_stay_distinct env
              [AddPage (VStr "docs") renderer0 (VStr ""); AddPartial renderer0;
               AddPage (VStr "home") renderer0 (VStr "")] g_home)
    as [Hnd [Hdup [Hnew _]]].
  - apply NoDup_singleton.
  - split; [exact Hnd|]. split; [|split].
    + apply Hdup. apply list_elem_of_singleton. reflexivity.
    + apply Hnew; try reflexivity.
      intros Hin. apply list_elem_of_singleton in Hin. discriminate Hin.
    + intros g.
      destruct (page_routes_stay_distinct env [] g) as [_ [_ [_ Hpartial]]].
      * apply NoDup_singleton.
      * apply (Hpartial renderer0). reflexivity.
Defined.

(** [add_page] registers a page under a reserved system route. *)
Lemma reserved_route_accepted_counterexample :
  let r := add_page env (VStr "initialize") renderer0 (VStr "") (start false None) in
  fst r = Ok tt
  /\ routes (snd r) = ["initialize"]
  /\ In "initialize" _reserved_routes.
Proof. vm_compute. repeat split. left. reflexivity. Qed.

End ReferenceRuns.

(** ** Further properties *)

Section MoreFacts.

Variable E : Env.

(** *** Binding *)

Lemma client_scopes_set_scope (sc : gmap string value) (g : gui) (sid : string) :
  request_sid g <> Some sid ->
  client_scopes (set_scope sc g) !! sid = client_scopes g !! sid.
Proof.
  intros Hsid. unfold set_scope.
  destruct (multi_user g); [destruct (request_sid g) as [s|] eqn:Hs|]; simpl; trivial.
  apply lookup_insert_ne. congruence.
Qed.

(** X1. A bind made while a session is served leaves the scope of every
    other session as it was. *)
Theorem bind_leaves_other_sessions (name : string) (val : value) (g : gui) (sid : string) :
  request_sid g <> Some sid ->
  client_scopes (snd (_bind E name val g)) !! sid = client_scopes g !! sid.
Proof.
  intros Hsid. rewrite _bind_spec.
  destruct (hasattr_self E g name); [reflexivity|].
  destruct (isidentifier name); [|reflexivity]. simpl.
  unfold bind_result.
  set (g1 := set_scope _ g).
  assert (H1 : client_scopes g1 !! sid = client_scopes g !! sid)
    by (apply client_scopes_set_scope, Hsid).
  destruct (global_scope g1 !! name); simpl; exact H1.
Qed.

Lemma global_scope_bind_result_is_Some (name : string) (val : value) (g : gui) :
  is_Some (global_scope (bind_result name val g) !! name).
Proof.
  unfold bind_result. set (g1 := set_scope _ g).
  destruct (global_scope g1 !! name) eqn:Hg; simpl.
  - rewrite Hg. eauto.
  - rewrite lookup_insert_eq. eauto.
Qed.

Lemma global_scope_bind_result_mono (name other : string) (val : value) (g : gui) :
  is_Some (global_scope g !! other) ->
  is_Some (global_scope (bind_result name val g) !! other).
Proof.
  intros Hsome. unfold bind_result. set (g1 := set_scope _ g).
  assert (H1 : is_Some (global_scope g1 !! other)).
  { destruct (global_scope_set_scope (<[name := bound_value val]> (get_scope g)) g)
      as [Heq | [Heq Hact]]; fold g1 in Heq; rewrite Heq; [exact Hsome|].
    rewrite Hact. destruct (decide (name = other)) as [->|Hne].
    - rewrite lookup_insert_eq. eauto.
    - rewrite lookup_insert_ne by exact Hne. exact Hsome. }
  destruct (global_scope g1 !! name) eqn:Hg; simpl; [exact H1|].
  destruct (decide (name = other)) as [->|Hne].
  - rewrite lookup_insert_eq. eauto.
  - rewrite lookup_insert_ne by exact Hne. exact H1.
Qed.

Lemma bound_have_default_bind (name : string) (val : value) (g : gui) :
  bound_have_default g -> bound_have_default (snd (_bind E name val g)).
Proof.
  intros Hinv. rewrite _bind_spec.
  destruct (hasattr_self E g name); [exact Hinv|].
  destruct (isidentifier name); [|exact Hinv]. simpl.
  intros other Hin.
  assert (Hcases : other = name \/ other ∈ bound_props g).
  { revert Hin. unfold bind_result. simpl.
    set (g1 := set_scope _ g).
    assert (Hp : bound_props g1 = bound_props g) by apply bound_props_set_scope.
    destruct (global_scope g1 !! name); simpl; rewrite Hp; set_solver. }
  destruct Hcases as [-> | Hold].
  - apply global_scope_bind_result_is_Some.
  - apply global_scope_bind_result_mono, Hinv, Hold.
Qed.

(** X2. Whatever binds are made, from whatever sessions and with whatever
    outcome, every name bound on the engine keeps a default value in the
    global scope. *)
Theorem binds_keep_global_defaults (cs : list (option string * string * value)) (g : gui) :
  bound_have_default g -> bound_have_default (run_binds E cs g).
Proof.
  revert g. induction cs as [|[[sid name] val] rest IH]; intros g Hinv; simpl.
  - exact Hinv.
  - apply IH, bound_have_default_bind. exact Hinv.
Qed.

Lemma bind_var_val_spec (var_name : string) (val : value) (g : gui) :
  bind_var_val E var_name val g =
    if hasattr_self E g var_name then (Ok false, g)
    else if isidentifier var_name then (Ok true, bind_result var_name val g)
    else (Raise (Exn ValueError ("Variable name '" ++ var_name ++ "' is invalid")), g).
Proof.
  unfold bind_var_val, bind, gets.
  destruct (hasattr_self E g var_name) eqn:Hhas; simpl; [reflexivity|].
  rewrite _bind_spec, Hhas. destruct (isidentifier var_name); reflexivity.
Qed.

(** X3. [bind_var_val] never raises the already-bound error: it binds and
    returns [True], after which a repeated call returns [False] and changes
    nothing; or it returns [False] and changes nothing; or the name is not
    an identifier and it raises, changing nothing. *)
Theorem bind_var_val_outcomes (var_name : string) (val val' : value) (g : gui) :
  let r := bind_var_val E var_name val g in
  (fst r = Ok true /\ snd r = bind_result var_name val g
   /\ bind_var_val E var_name val' (snd r) = (Ok false, snd r))
  \/ r = (Ok false, g)
  \/ (isidentifier var_name = false
      /\ r = (Raise (Exn ValueError ("Variable name '" ++ var_name ++ "' is invalid")), g)).
Proof.
  intros r. subst r. rewrite bind_var_val_spec.
  destruct (hasattr_self E g var_name) eqn:Hhas; [right; left; reflexivity|].
  destruct (isidentifier var_name) eqn:Hid.
  - left. split; [reflexivity|]. split; [reflexivity|]. simpl.
    rewrite bind_var_val_spec, hasattr_bind_result. reflexivity.
  - right. right. split; reflexivity.
Qed.

(** *** Updates *)

(** X4. A variable that holds a bool is coerced like one that holds an int
    ([bool] derives from [int], and the test for [int] comes first): a
    string payload goes through [int()], and the coerced value is never a
    bool. *)
Theorem coerce_bool_variable_as_int (var_name : string) (b : bool) (s : string) :
  coerce_value E var_name (VBool b) (VStr s) = coerce_value E var_name (VInt 0) (VStr s)
  /\ (forall v, coerce_value E var_name (VBool b) (VStr s) = Ok (Some v) ->
                exists z, v = VInt z).
Proof.
  split; [reflexivity|].
  unfold coerce_value. simpl.
  destruct (negb (String.eqb s "")); [destruct (py_int s)|]; intros v [= <-]; eauto.
Qed.

Lemma attrgetter_plain (name : string) (sc : gmap string value) :
  plain_name name -> attrgetter E name sc = getattr_scope sc name.
Proof. intros Hplain. unfold attrgetter. rewrite Hplain. reflexivity. Qed.

Lemma dict_set_same (k : string) (v v' : value) :
  dict_set k v' [(k, v)] = [(k, v')].
Proof. simpl. rewrite String.eqb_refl. reflexivity. Qed.

(** The message that carries the value [out] of variable [name]. *)
Lemma send_scalar_update (name : string) (v out : value) (vars : list string) (g : gui) :
  plain_name name ->
  broadcast_spares_active E ->
  isinstance_datetime v = false -> isinstance_list v = false ->
  _is_data_access E name v = false ->
  _run_adapter_for_var E name v None true = Ok out ->
  isinstance_MapDictionary out = false ->
  (forall m, ws_emit_error E m = None) ->
  get_scope g !! name = Some v ->
  vars = [name] \/ vars = [name; name] ->
  exists g', __send_var_list_update E (map VStr vars) g = (Ok tt, g')
    /\ get_scope g' = get_scope g
    /\ _get_ws_receiver g' = _get_ws_receiver g
    /\ emitted g' = (emitted g ++ [WsMessage MULTIPLE_UPDATE
                        [WsEntry (get_client_var_name E name) (wrap_value out)]
                        (_get_ws_receiver g)])%list.
Proof.
  intros Hplain Hbc Hdt Hl Hda Had Hmd Hemit Hv Hvars.
  assert (Hstep : forall g0 rest d,
             get_scope g0 !! name = Some v ->
             send_var_list_loop E (VStr name :: rest) d g0
             = send_var_list_loop E rest (dict_set name out d)
                 (with_client_scopes (broadcast_data E name v g0) g0)).
  { intros g0 rest d H0. apply send_loop_scalar_step; auto.
    rewrite attrgetter_plain by exact Hplain. unfold getattr_scope. by rewrite H0. }
  assert (Hsend : forall g0,
             _send_ws_update_with_dict E [(name, out)] g0
             = (Ok tt, with_emitted (emitted g0 ++ [WsMessage MULTIPLE_UPDATE
                          [WsEntry (get_client_var_name E name) (wrap_value out)]
                          (_get_ws_receiver g0)]) g0)).
  { intros g0. unfold _send_ws_update_with_dict, try_except. mstep. simpl.
    rewrite Hemit. reflexivity. }
  unfold __send_var_list_update, bind.
  destruct Hvars as [-> | ->]; cbn [map].
  - rewrite Hstep by exact Hv. cbn [send_var_list_loop dict_set]. unfold ret.
    rewrite Hsend. eexists. split; [reflexivity|].
    split; [apply Hbc|]. split; reflexivity.
  - rewrite Hstep by exact Hv. rewrite Hstep by (rewrite Hbc; exact Hv).
    cbn [send_var_list_loop dict_set]. rewrite String.eqb_refl. unfold ret.
    rewrite Hsend. eexists. split; [reflexivity|]. split; [|split; reflexivity].
    change (get_scope (with_emitted ?m ?x)) with (get_scope x). rewrite !Hbc. reflexivity.
Qed.

(** The conditions under which a variable travels as a plain scalar: no
    dependent expression, adapter, accessor or callback stands in the way,
    and the transport is up. *)
Section PlainVariable.

Variables (name : string) (val' out : value).
Hypothesis Hplain : plain_name name.
Hypothesis Hhash : get_hash_from_expr E name = name.
Hypothesis Hset : forall sc, attrsetter E sc name val' = Ok (<[name := val']> sc).
Hypothesis Hre : forall sc, exists deps,
    re_evaluate_expr E name sc = (Ok deps, sc) /\ (deps = [] \/ deps = [name]).
Hypothesis Hbc : broadcast_spares_active E.
Hypothesis Hdt : isinstance_datetime val' = false.
Hypothesis Hl : isinstance_list val' = false.
Hypothesis Hda : _is_data_access E name val' = false.
Hypothesis Had : _run_adapter_for_var E name val' None true = Ok out.
Hypothesis Hmd : isinstance_MapDictionary out = false.
Hypothesis Hemit : forall m, ws_emit_error E m = None.

Lemma _update_var_plain (propagate : value) (g : gui) :
  py_truthy propagate = true ->
  py_truthy (_update_function g) = false ->
  exists g', _update_var E name val' propagate g = (Ok tt, g')
    /\ get_scope g' !! name = Some val'
    /\ _get_ws_receiver g' = _get_ws_receiver g
    /\ emitted g' = (emitted g ++ [WsMessage MULTIPLE_UPDATE
                        [WsEntry (get_client_var_name E name) (wrap_value out)]
                        (_get_ws_receiver g)])%list.
Proof.
  intros Hprop Hnocb.
  unfold _update_var. rewrite Hhash, Hprop, String.eqb_refl.
  mstep. unfold _get_data_scope. rewrite Hset.
  set (sc' := <[name := val']> (get_scope g)).
  rewrite get_scope_set_scope.
  destruct (Hre sc') as (deps & Hre' & Hdeps). rewrite Hre'.
  rewrite !_update_function_set_scope, Hnocb.
  destruct (send_scalar_update name val' out (name :: deps)
              (set_scope sc' (set_scope sc' g)))
    as (g' & Hrun & Hsc & Hrcv & Hem); auto.
  { rewrite get_scope_set_scope. apply lookup_insert_eq. }
  { destruct Hdeps as [-> | ->]; auto. }
  exists g'. split; [exact Hrun|]. split; [|split].
  - rewrite Hsc, get_scope_set_scope. apply lookup_insert_eq.
  - rewrite Hrcv, !_get_ws_receiver_set_scope. reflexivity.
  - rewrite Hem, !emitted_set_scope, !_get_ws_receiver_set_scope. reflexivity.
Qed.

(** X5. An UPDATE with a true [propagate] for a plain variable stores the
    coerced value in the active scope and emits one MULTIPLE_UPDATE message
    whose single entry carries that value under the wire name of the
    variable. *)
Theorem update_stores_and_notifies (currentvalue val propagate : value) (g : gui) :
  get_scope g !! name = Some currentvalue ->
  coerce_value E name currentvalue val = Ok (Some val') ->
  py_truthy propagate = true ->
  py_truthy (_update_function g) = false ->
  let r := _front_end_update E (VStr name) val propagate g in
  fst r = Ok tt
  /\ get_scope (snd r) !! name = Some val'
  /\ emitted (snd r) = (emitted g ++ [WsMessage MULTIPLE_UPDATE
                           [WsEntry (get_client_var_name E name) (wrap_value out)]
                           (_get_ws_receiver g)])%list.
Proof.
  intros Hcur Hco Hprop Hnocb r.
  destruct (_update_var_plain propagate g Hprop Hnocb) as (g' & Hrun & Hsc & _ & Hem).
  assert (Hr : r = (Ok tt, g')).
  { subst r. unfold _front_end_update, as_name. mstep. unfold _get_data_scope.
    rewrite Hhash, attrgetter_plain by exact Hplain.
    unfold getattr_scope. rewrite Hcur, Hco. exact Hrun. }
  rewrite Hr. auto.
Qed.

(** X6. Round trip: after such an UPDATE, a REQUEST_UPDATE for the variable
    sends the value just written once more. *)
Theorem update_then_request_round_trip (currentvalue val propagate : value) (g : gui) :
  get_scope g !! name = Some currentvalue ->
  coerce_value E name currentvalue val = Ok (Some val') ->
  py_truthy propagate = true ->
  py_truthy (_update_function g) = false ->
  let g1 := snd (_front_end_update E (VStr name) val propagate g) in
  let r := _request_var_update E (VDict [("names", VList [VStr name])]) g1 in
  let msg := WsMessage MULTIPLE_UPDATE
               [WsEntry (get_client_var_name E name) (wrap_value out)]
               (_get_ws_receiver g) in
  fst r = Ok tt
  /\ get_scope (snd r) !! name = Some val'
  /\ emitted (snd r) = (emitted g ++ [msg; msg])%list.
Proof.
  intros Hcur Hco Hprop Hnocb g1 r msg.
  destruct (_update_var_plain propagate g Hprop Hnocb) as (g' & Hrun & Hsc & Hrcv & Hem).
  assert (Hg1 : g1 = g').
  { subst g1. unfold _front_end_update, as_name. mstep. unfold _get_data_scope.
    rewrite Hhash, attrgetter_plain by exact Hplain.
    unfold getattr_scope. rewrite Hcur, Hco, Hrun. reflexivity. }
  subst r. rewrite Hg1. unfold _request_var_update. cbn [dict_get String.eqb Ascii.eqb Bool.eqb].
  destruct (send_scalar_update name val' out [name] g')
    as (g2 & Hrun2 & Hsc2 & _ & Hem2); auto.
  change (map VStr [name]) with [VStr name] in Hrun2. rewrite Hrun2. simpl.
  split; [reflexivity|]. split; [by rewrite Hsc2|].
  rewrite Hem2, Hem, Hrcv. subst msg. by rewrite <- app_assoc.
Qed.

End PlainVariable.

(** *** The send path *)

Lemma _send_ws_update_with_dict_spec (d : list (string * value)) (g : gui) :
  let msg := WsMessage MULTIPLE_UPDATE
               (map (fun kv => WsEntry (get_client_var_name E (fst kv)) (wrap_value (snd kv))) d)
               (_get_ws_receiver g) in
  _send_ws_update_with_dict E d g =
    match ws_emit_error E msg with
    | None => (Ok tt, with_emitted (emitted g ++ [msg]) g)
    | Some e => (Ok tt, with_warnings_log (warnings_log g ++ [WWebSocketError e]) g)
    end.
Proof.
  intros msg. unfold _send_ws_update_with_dict, try_except, warn. mstep.
  fold msg. destruct (ws_emit_error E msg); reflexivity.
Qed.

(** X7. A batch is sent whole or not at all: when [__send_var_list_update]
    raises, for instance on a name that the active scope does not hold,
    no message has been emitted and no warning logged, whatever variables
    came before in the list. *)
Theorem send_var_list_all_or_nothing (modified_vars : list value) (g : gui) (e : exn) :
  fst (__send_var_list_update E modified_vars g) = Raise e ->
  emitted (snd (__send_var_list_update E modified_vars g)) = emitted g
  /\ warnings_log (snd (__send_var_list_update E modified_vars g)) = warnings_log g.
Proof.
  unfold __send_var_list_update, bind.
  assert (Hem : keeps emitted (send_var_list_loop E modified_vars []))
    by (apply keeps_send_loop; reflexivity).
  assert (Hw : keeps warnings_log (send_var_list_loop E modified_vars []))
    by (apply keeps_send_loop; reflexivity).
  specialize (Hem g). specialize (Hw g).
  destruct (send_var_list_loop E modified_vars [] g) as [[d|e'] g1]; simpl in *.
  - rewrite _send_ws_update_with_dict_spec. simpl.
    destruct (ws_emit_error E _); discriminate.
  - auto.
Qed.

Lemma wrap_value_has_value (v : value) :
  exists d, wrap_value v = VDict d /\ is_Some (dict_get d "value").
Proof.
  destruct v; simpl; try (eexists; split; [reflexivity | simpl; eauto]).
  destruct (bool_decide (is_Some (dict_get d "value"))) eqn:Hd.
  - apply bool_decide_eq_true in Hd. eauto.
  - eexists; split; [reflexivity | simpl; eauto].
Qed.

(** X8. [_send_ws_update_with_dict] never raises.  It hands one message to
    the transport, with one entry per key of the dictionary, in order, each
    entry carrying a dictionary with a [value] key; if the transport
    raises, nothing is emitted and the exception becomes one warning. *)
Theorem send_ws_update_with_dict_outcome (d : list (string * value)) (g : gui) :
  let r := _send_ws_update_with_dict E d g in
  fst r = Ok tt
  /\ ((exists msg, emitted (snd r) = (emitted g ++ [msg])%list
                   /\ warnings_log (snd r) = warnings_log g
                   /\ ws_type msg = MULTIPLE_UPDATE
                   /\ ws_to msg = _get_ws_receiver g
                   /\ map we_name (ws_payload msg) = map (fun kv => get_client_var_name E (fst kv)) d
                   /\ Forall (fun en => exists x, we_payload en = VDict x
                                                  /\ is_Some (dict_get x "value"))
                             (ws_payload msg))
      \/ (exists e, emitted (snd r) = emitted g
                    /\ warnings_log (snd r) = (warnings_log g ++ [WWebSocketError e])%list)).
Proof.
  intros r. subst r. rewrite _send_ws_update_with_dict_spec. simpl.
  destruct (ws_emit_error E _) as [e|]; simpl.
  - split; [reflexivity|]. right. eauto.
  - split; [reflexivity|]. left. eexists. split; [reflexivity|]. simpl.
    repeat split.
    + rewrite map_map. reflexivity.
    + apply Forall_map. apply Forall_forall. intros kv _. apply wrap_value_has_value.
Qed.

(** X9. An UPDATE for a plain name that the active scope does not hold is
    not dropped: the [AttributeError] of the lookup leaves the dispatcher,
    and the state is as before. *)
Theorem update_unbound_variable_raises (name : string) (payload : value)
  (message : list (string * value)) (g : gui) :
  plain_name name ->
  get_hash_from_expr E name = name ->
  get_scope g !! name = None ->
  dict_get message "name" = Some (VStr name) ->
  dict_get message "payload" = Some payload ->
  _manage_message E (WsType_value E UPDATE) message g
  = (Raise (Exn AttributeError name), g).
Proof.
  intros Hplain Hhash Hnone Hname Hpayload.
  unfold _manage_message, _manage_message_try, try_except. rewrite String.eqb_refl.
  unfold dict_item. rewrite Hname, Hpayload.
  unfold _front_end_update, as_name. mstep. unfold _get_data_scope.
  destruct (dict_get message "propagate") as [p|] eqn:Hp;
    [rewrite bool_decide_eq_true_2 by eauto
    |rewrite bool_decide_eq_false_2 by (intros [x Hx]; discriminate)];
    rewrite Hhash, attrgetter_plain by exact Hplain;
    unfold getattr_scope; rewrite Hnone; reflexivity.
Qed.

(** X10. REQUEST_UPDATE at its edges: a payload dictionary without a list
    under [names] does nothing at all, and an empty list of names still
    emits a message, with an empty payload. *)
Theorem request_var_update_edges (d : list (string * value)) (g : gui) :
  let r := _request_var_update E (VDict d) g in
  (dict_get d "names" = None -> r = (Ok tt, g))
  /\ (forall v, dict_get d "names" = Some v -> isinstance_list v = false -> r = (Ok tt, g))
  /\ (dict_get d "names" = Some (VList []) ->
      (forall m, ws_emit_error E m = None) ->
      r = (Ok tt, with_emitted
                    (emitted g ++ [WsMessage MULTIPLE_UPDATE [] (_get_ws_receiver g)]) g)).
Proof.
  intros r. subst r. unfold _request_var_update. split; [|split].
  - intros ->. reflexivity.
  - intros v -> Hl. destruct v; try reflexivity. discriminate.
  - intros -> Hemit. unfold __send_var_list_update, bind. simpl.
    unfold ret. rewrite _send_ws_update_with_dict_spec. simpl. rewrite Hemit. reflexivity.
Qed.

Lemma request_sid_set_scope sc g : request_sid (set_scope sc g) = request_sid g.
Proof.
  unfold set_scope.
  destruct (multi_user g); [destruct (request_sid g) eqn:Hs|]; simpl; auto.
Qed.

(** X11. Sessions are isolated under updates: handling an UPDATE for one
    session leaves the scope of any other session as it was, provided the
    broadcast and the update callback of the application leave it alone. *)
Theorem update_leaves_other_sessions (var_name val propagate : value) (g : gui)
  (sid : string) :
  request_sid g <> Some sid ->
  (forall n v g0, broadcast_data E n v g0 !! sid = client_scopes g0 !! sid) ->
  (forall args, keeps (fun g0 => client_scopes g0 !! sid)
                      (call_value E (_update_function g) args)) ->
  client_scopes (snd (_front_end_update E var_name val propagate g)) !! sid
  = client_scopes g !! sid.
Proof.
  intros Hsid Hbc Hcb.
  set (obs := fun g0 : gui => client_scopes g0 !! sid).
  change (obs (snd (_front_end_update E var_name val propagate g)) = obs g).
  assert (Hsend : forall vars, keeps obs (__send_var_list_update E vars)).
  { intros vars. apply keeps_send_var_list; try reflexivity. intros n v g0. apply Hbc. }
  assert (Hwrite : forall sc g0, request_sid g0 = request_sid g ->
                                 obs (set_scope sc g0) = obs g0).
  { intros sc g0 Hreq. apply client_scopes_set_scope. congruence. }
  unfold _front_end_update, bind.
  destruct (as_name var_name g) as [[name|e] g0] eqn:Hname.
  2:{ destruct var_name; inversion Hname; reflexivity. }
  assert (g0 = g) by (destruct var_name; inversion Hname; reflexivity). subst g0.
  unfold gets, lift.
  destruct (attrgetter E _ _) as [currentvalue|e]; [|reflexivity].
  destruct (coerce_value E name currentvalue val) as [[val'|]|e]; try reflexivity.
  assert (Hfinish : forall (g1 : gui) (vars : list string),
             obs g1 = obs g -> _update_function g1 = _update_function g ->
             obs (snd (bind (gets _update_function) (fun f =>
                      bind (if py_truthy f then invoke E f [VSelf; VStr name; val'] else ret tt)
                           (fun _ => __send_var_list_update E (map VStr vars))) g1))
             = obs g).
  { intros g1 vars Ho Hu. mstep. rewrite Hu.
    destruct (py_truthy (_update_function g)).
    - rewrite invoke_spec.
      set (gr := with_calls (calls g1 ++ [(_update_function g, [VSelf; VStr name; val'])]) g1).
      specialize (Hcb [VSelf; VStr name; val'] gr).
      change (client_scopes gr !! sid) with (obs g1) in Hcb.
      destruct (call_value E (_update_function g) _ gr) as [[[]|e] g2]; simpl in *.
      + rewrite Hsend. unfold obs in *. congruence.
      + unfold obs in *. congruence.
    - rewrite Hsend. exact Ho. }
  unfold _update_var.
  destruct (py_truthy propagate).
  - unfold bind at 1. unfold bind at 1. unfold gets at 1. unfold _get_data_scope at 1.
    unfold bind at 1. unfold lift at 1.
    destruct (attrsetter E (get_scope g) (get_hash_from_expr E name) val')
      as [scope'|e]; [|reflexivity].
    unfold bind at 1. unfold modify at 1.
    destruct (String.eqb name (get_hash_from_expr E name)).
    + unfold bind at 1. unfold gets at 1. unfold _get_data_scope at 1.
      destruct (re_evaluate_expr E name _) as [[deps|e] scope''].
      * unfold bind at 1. unfold modify at 1. unfold bind at 1. unfold lift at 1.
        unfold ret at 1.
        apply Hfinish; rewrite ?_update_function_set_scope; [|reflexivity].
        rewrite !Hwrite; rewrite ?request_sid_set_scope; reflexivity.
      * unfold bind at 1. unfold modify at 1. unfold bind at 1. unfold lift at 1.
        simpl. rewrite !Hwrite; rewrite ?request_sid_set_scope; reflexivity.
    + unfold ret at 1.
      apply Hfinish; rewrite ?_update_function_set_scope; [|reflexivity].
      rewrite !Hwrite; reflexivity.
  - unfold bind at 1. unfold ret at 1. apply Hfinish; reflexivity.
Qed.

Lemma eqb_append_refresh (name : string) : String.eqb name (name ++ ".refresh") = false.
Proof.
  induction name as [|c name IH]; [reflexivity|].
  simpl. rewrite Ascii.eqb_refl. exact IH.
Qed.

(** X12. A DATA_UPDATE request for a plain variable is answered by one
    message of two entries: the data returned by the accessor under the
    name of the variable, and [False] under that name followed by
    [.refresh]. *)
Theorem request_data_update_reply (name : string) (v payload data : value) (g : gui) :
  plain_name name ->
  get_hash_from_expr E name = name ->
  get_scope g !! name = Some v ->
  _get_data E name v payload = Ok data ->
  (forall m, ws_emit_error E m = None) ->
  _request_data_update E (VStr name) payload g
  = (Ok tt,
     with_emitted
       (emitted g ++ [WsMessage MULTIPLE_UPDATE
          [WsEntry (get_client_var_name E name) (wrap_value data);
           WsEntry (get_client_var_name E (name ++ ".refresh")) (VDict [("value", VBool false)])]
          (_get_ws_receiver g)]) g).
Proof.
  intros Hplain Hhash Hv Hdata Hemit.
  unfold _request_data_update, as_name. mstep. unfold _get_data_scope.
  rewrite Hhash, attrgetter_plain by exact Hplain.
  unfold getattr_scope. rewrite Hv, Hdata.
  cbn [dict_set]. rewrite eqb_append_refresh.
  rewrite _send_ws_update_with_dict_spec. simpl. rewrite Hemit. reflexivity.
Qed.

(** *** Actions *)

Lemma __call_function_with_args_calls (f id action payload : value) (g : gui) :
  (forall f0 args, keeps calls (call_value E f0 args)) ->
  exists l, calls (snd (__call_function_with_args E f id action payload g))
            = (calls g ++ l)%list
            /\ (length l <= 1)%nat
            /\ Forall (fun c => isinstance_FunctionType (fst c) = true) l.
Proof.
  intros Hkeep.
  destruct f as [| | | | | | | | | |fn| |];
    try solve [exists []; simpl; rewrite app_nil_r; repeat split; auto].
  rewrite __call_function_with_args_spec.
  destruct (call_args _ _ _ _) as [args|].
  - exists [(VFunc fn, args)]. cbv zeta.
    set (gr := with_calls (calls g ++ [(VFunc fn, args)]) g).
    specialize (Hkeep (VFunc fn) args gr).
    destruct (call_value E (VFunc fn) args gr) as [[[]|e] g']; simpl in *;
      repeat split; auto.
  - exists []. simpl. rewrite app_nil_r. repeat split; auto.
Qed.

(** X13. Handling an ACTION, the dispatcher itself calls at most two
    callables, and only plain functions: an attribute of the engine that is
    something else (a bound method, a bound variable) is never called.
    (The count is of the dispatcher's own calls: the callees are taken to
    make no engine call themselves.) *)
Theorem on_action_calls_plain_functions (id payload : value) (g : gui) :
  (forall f args, keeps calls (call_value E f args)) ->
  exists l, calls (snd (_on_action E id payload g)) = (calls g ++ l)%list
            /\ (length l <= 2)%nat
            /\ Forall (fun c => isinstance_FunctionType (fst c) = true) l.
Proof.
  intros Hkeep.
  assert (Hnil : exists l : list (value * list value),
             calls g = (calls g ++ l)%list /\ (length l <= 2)%nat
             /\ Forall (fun c => isinstance_FunctionType (fst c) = true) l).
  { exists []. rewrite app_nil_r. repeat split; auto. }
  assert (Hglobal : forall g1 l1,
             calls g1 = (calls g ++ l1)%list -> (length l1 <= 1)%nat ->
             Forall (fun c => isinstance_FunctionType (fst c) = true) l1 ->
             exists l, calls (snd (bind (gets _action_function) (fun f =>
                         if py_truthy f
                         then bind (__call_function_with_args E f id (action_of E payload) payload)
                                   (fun _ => ret tt)
                         else ret tt) g1)) = (calls g ++ l)%list
                       /\ (length l <= 2)%nat
                       /\ Forall (fun c => isinstance_FunctionType (fst c) = true) l).
  { intros g1 l1 Hc Hlen Hall. mstep.
    destruct (py_truthy (_action_function g1)).
    - destruct (__call_function_with_args_calls (_action_function g1) id
                  (action_of E payload) payload g1 Hkeep) as (l2 & Hc2 & Hlen2 & Hall2).
      exists (l1 ++ l2)%list.
      destruct (__call_function_with_args E _ _ _ _ g1) as [[b|e] g2]; simpl in *;
        (split; [by rewrite Hc2, Hc, app_assoc|]);
        (split; [rewrite length_app; lia | by apply Forall_app]).
    - exists l1. simpl. split; [exact Hc|]. split; [lia | exact Hall]. }
  unfold _on_action.
  destruct (py_truthy (action_of E payload)).
  - destruct (action_of E payload) as [| | | | |s| | | | | | |]; try exact Hnil.
    unfold bind at 1. unfold bind at 1. unfold bind at 1. unfold ret at 1. unfold gets at 1.
    destruct (hasattr_self E g s).
    + unfold bind at 1.
      destruct (getattr_self E g s) as [f|e]; [|exact Hnil].
      destruct (__call_function_with_args_calls f id VNone payload g Hkeep)
        as (l1 & Hc1 & Hlen1 & Hall1).
      destruct (__call_function_with_args E f id VNone payload g) as [[b|e] g1]; simpl in Hc1.
      * destruct b; [|by apply (Hglobal g1 l1)].
        exists l1. simpl. split; [exact Hc1|]. split; [lia | exact Hall1].
      * exists l1. simpl. split; [exact Hc1|]. split; [lia | exact Hall1].
    + unfold ret at 1. apply (Hglobal g []); auto. by rewrite app_nil_r.
  - unfold bind at 1. unfold ret at 1. apply (Hglobal g []); auto. by rewrite app_nil_r.
Qed.

Lemma _on_action_engine_function (id payload : value) (s : string) (fn : pyfunc)
  (args : list value) (g g' : gui) :
  action_of E payload = VStr s ->
  s <> "" ->
  getattr_self E g s = Ok (VFunc fn) ->
  call_args (co_argcount fn) id VNone payload = Some args ->
  call_value E (VFunc fn) args (with_calls (calls g ++ [(VFunc fn, args)]) g) = (Ok tt, g') ->
  _on_action E id payload g = (Ok tt, g').
Proof.
  intros Hact Hs Hget Hargs Hcall.
  unfold _on_action. rewrite Hact. cbn [py_truthy].
  rewrite (proj2 (String.eqb_neq s "") Hs). cbn [negb].
  unfold bind at 1. unfold bind at 1. unfold bind at 1. unfold ret at 1. unfold gets at 1.
  unfold hasattr_self. rewrite Hget. cbn [is_Ok].
  unfold bind at 1. rewrite Hget.
  rewrite __call_function_with_args_spec, Hargs. cbv zeta. rewrite Hcall. reflexivity.
Qed.

(** X14. A function found under the action name on the engine handles the
    action: when its call returns, the dispatcher returns at once, with the
    state that the function left; it does not itself go on to the global
    action callback. *)
Theorem engine_attribute_handles_action (id payload : value) (s : string) (fn : pyfunc)
  (args : list value) (g g' : gui) :
  action_of E payload = VStr s ->
  s <> "" ->
  getattr_self E g s = Ok (VFunc fn) ->
  call_args (co_argcount fn) id VNone payload = Some args ->
  call_value E (VFunc fn) args (with_calls (calls g ++ [(VFunc fn, args)]) g) = (Ok tt, g') ->
  _on_action E id payload g = (Ok tt, g').
Proof. apply _on_action_engine_function. Qed.

(** X15. With no global action callback registered, an action that names no
    attribute of the engine is dropped without a trace: no call, no
    warning, no change of state. *)
Theorem unhandled_action_is_dropped (id payload : value) (g : gui) :
  (py_truthy (action_of E payload) = false
   \/ exists s, action_of E payload = VStr s /\ hasattr_self E g s = false) ->
  py_truthy (_action_function g) = false ->
  _on_action E id payload g = (Ok tt, g).
Proof.
  intros Hact Hf. unfold _on_action.
  destruct Hact as [Hfalsy | (s & Hs & Hhas)].
  - rewrite Hfalsy. mstep. rewrite Hf. reflexivity.
  - rewrite Hs. destruct (py_truthy (VStr s)); mstep; rewrite ?Hhas, Hf; reflexivity.
Qed.

(** *** Routes *)

Lemma add_page_spec (name renderer style : value) (g : gui) :
  add_page E name renderer style g =
    match name with
    | VNone => (Raise (PyException "name is required for add_page function!"), g)
    | VStr s =>
        if negb (RE_PAGE_NAME_match s) then
          (Raise (Exn SyntaxError ("Page name " ++ s ++ " is invalid.")), g)
        else if startswith_slash s then
          (Raise (Exn SyntaxError
                    ("Page name " ++ s ++ " cannot start with forward slash (/) character")), g)
        else if bool_decide (s ∈ routes g) then
          (Raise (PyException ("Page name " ++ shown_page_name s ++ " is already defined")), g)
        else if negb (isinstance_PageRenderer E renderer) then
          (Raise (PyException ("Page name " ++ shown_page_name s ++ " has invalid PageRenderer")), g)
        else (Ok tt, with_pages (routes g ++ [s]) (pages g ++ [Page s renderer style]) g)
    | _ => (Raise (Exn TypeError "expected string or bytes-like object"), g)
    end.
Proof.
  unfold add_page. destruct name; try reflexivity.
  destruct (RE_PAGE_NAME_match s); [|reflexivity]. simpl.
  destruct (startswith_slash s); [reflexivity|]. mstep.
  destruct (bool_decide (s ∈ routes g)); [reflexivity|].
  destruct (isinstance_PageRenderer E renderer); reflexivity.
Qed.

(** X16. [add_page] checks before it writes: when it raises, the state is
    as before; when it returns, the name is a string that was no page route
    yet, the renderer is a page renderer, and exactly the route and the
    page, with its renderer and style, have been appended. *)
Theorem add_page_outcome (name renderer style : value) (g : gui) :
  let r := add_page E name renderer style g in
  (forall e, fst r = Raise e -> snd r = g)
  /\ (fst r = Ok tt ->
      exists s, name = VStr s
        /\ (s ∉ routes g)
        /\ isinstance_PageRenderer E renderer = true
        /\ snd r = with_pages (routes g ++ [s]) (pages g ++ [Page s renderer style]) g).
Proof.
  intros r. subst r. rewrite add_page_spec.
  destruct name as [| | | | |s| | | | | | |];
    try (split; [intros e _; reflexivity | discriminate]).
  destruct (RE_PAGE_NAME_match s); simpl; [|split; [reflexivity | discriminate]].
  destruct (startswith_slash s); [split; [reflexivity | discriminate]|].
  destruct (bool_decide (s ∈ routes g)) eqn:Hin; [split; [reflexivity | discriminate]|].
  destruct (isinstance_PageRenderer E renderer); simpl;
    [|split; [reflexivity | discriminate]].
  split; [discriminate|]. intros _. exists s.
  apply bool_decide_eq_false in Hin. auto.
Qed.

Lemma match_page_chars_shape (seen : bool) (l : list ascii) :
  match_page_chars seen l = true <->
  (seen = true /\ (l = [] \/ l = ["010"%char])) \/ page_name_shape l.
Proof.
  revert seen. induction l as [|c r IH]; intros seen; simpl.
  - split.
    + intros ->. left. auto.
    + intros [[Hs _] | (body & Hne & _ & [Hl | Hl])]; [exact Hs | |].
      * subst body. contradiction.
      * destruct body; discriminate.
  - destruct (is_page_char c) eqn:Hc.
    + rewrite IH. split.
      * intros [[_ [-> | ->]] | (body & Hne & Hall & [-> | ->])]; right.
        -- exists [c]. simpl. rewrite Hc. split; [discriminate|]. auto.
        -- exists [c]. simpl. rewrite Hc. split; [discriminate|]. auto.
        -- exists (c :: body). simpl. rewrite Hc, Hall. split; [discriminate|]. auto.
        -- exists (c :: body). simpl. rewrite Hc, Hall. split; [discriminate|]. auto.
      * intros [[_ [Hl | Hl]] | (body & Hne & Hall & Hl)].
        -- discriminate.
        -- injection Hl as -> ->. discriminate.
        -- destruct body as [|b body]; [contradiction|].
           simpl in Hall. apply andb_prop in Hall as [_ Hall].
           destruct body as [|b' body].
           ++ left. split; [reflexivity|].
              destruct Hl as [Hl | Hl]; injection Hl as _ ->; auto.
           ++ right. exists (b' :: body). split; [discriminate|]. split; [exact Hall|].
              destruct Hl as [Hl | Hl]; injection Hl as _ ->; auto.
    + split.
      * intros H. apply andb_prop in H as [H Hr]. apply andb_prop in H as [Hs Hnl].
        apply Ascii.eqb_eq in Hnl. subst c. left. split; [exact Hs|].
        destruct r; [auto | discriminate].
      * intros [[-> [Hl | Hl]] | (body & Hne & Hall & Hl)].
        -- discriminate.
        -- injection Hl as -> ->. reflexivity.
        -- destruct body as [|b body]; [contradiction|].
           simpl in Hall. apply andb_prop in Hall as [Hb _].
           destruct Hl as [Hl | Hl]; injection Hl as -> _; congruence.
Qed.

(** X17. The names that the pattern of page names accepts are exactly the
    non-empty sequences of word characters, dashes and slashes, and those
    followed by a single newline.  A word character is what [\w] matches in
    a pattern on [str]: an alphanumeric character of Unicode or the
    underscore, so an accented letter is one; the model has the word
    characters below code point 256. *)
Theorem page_name_pattern (name : string) :
  RE_PAGE_NAME_match name = true <-> page_name_shape (list_ascii_of_string name).
Proof.
  unfold RE_PAGE_NAME_match. rewrite match_page_chars_shape.
  split; [|auto]. intros [[Hs _] | H]; [discriminate | exact H].
Qed.

Lemma add_page_aligned (name renderer style : value) (g : gui) :
  config_aligned g -> config_aligned (snd (add_page E name renderer style g)).
Proof.
  intros [Hp Hq]. rewrite add_page_spec.
  destruct name; try (split; assumption).
  destruct (negb _); [split; assumption|].
  destruct (startswith_slash s); [split; assumption|].
  destruct (bool_decide _); [split; assumption|].
  destruct (negb _); [split; assumption|].
  split; [|exact Hq].
  change (map route (pages g ++ [Page s renderer style]) = (routes g ++ [s])%list).
  rewrite map_app, Hp. reflexivity.
Qed.

Lemma add_partial_aligned (renderer : value) (g : gui) :
  config_aligned g -> config_aligned (snd (add_partial E renderer g)).
Proof.
  intros [Hp Hq]. unfold add_partial, warn. mstep.
  destruct (_ || _); destruct (isinstance_PageRenderer E renderer);
    (split; [exact Hp|]); try exact Hq;
    match goal with
    | |- map route (partials ?x) = partial_routes ?x =>
        change (map route (partials g ++ [Page (new_partial_route E g) renderer VNone])
                = (partial_routes g ++ [new_partial_route E g])%list)
    end; rewrite map_app, Hq; reflexivity.
Qed.

(** X18. The lists of the configuration stay paired through every sequence
    of [add_page] and [add_partial] calls: the routes are the routes of the
    pages, and the partial routes those of the partials, in order. *)
Theorem route_calls_keep_alignment (cs : list route_call) (g : gui) :
  config_aligned g -> config_aligned (run_route_calls E cs g).
Proof.
  revert g. induction cs as [|c rest IH]; intros g Hal; simpl; [exact Hal|].
  apply IH. destruct c; simpl; [apply add_page_aligned | apply add_partial_aligned]; exact Hal.
Qed.

Lemma add_pages_loop_app (d1 d2 : list (value * value)) (g : gui) :
  add_pages_loop E (d1 ++ d2) g =
    match add_pages_loop E d1 g with
    | (Ok _, g1) => add_pages_loop E d2 g1
    | (Raise e, g1) => (Raise e, g1)
    end.
Proof.
  revert g. induction d1 as [|[k v] d1 IH]; intros g; simpl; [reflexivity|].
  unfold bind. destruct (add_page E (page_key k) v (VStr "") g) as [[[]|e] g1];
    [apply IH | reflexivity].
Qed.

(** X19. [add_pages] is not atomic: the pages of a dictionary are added in
    order up to the first entry that [add_page] refuses; the pages before it
    stay registered, the exception of that entry is raised, and the entries
    after it are not looked at. *)
Theorem add_pages_stops_at_first_failure (d1 d2 : list (value * value)) (k v : value)
  (g g1 : gui) (e : exn) :
  add_pages E (PagesDict d1) g = (Ok tt, g1) ->
  fst (add_page E (page_key k) v (VStr "") g1) = Raise e ->
  add_pages E (PagesDict (d1 ++ (k, v) :: d2)) g = (Raise e, g1).
Proof.
  simpl. intros H1 Hfail. rewrite add_pages_loop_app, H1. simpl. unfold bind.
  pose proof (add_page_spec (page_key k) v (VStr "") g1) as Hspec.
  destruct (add_page E (page_key k) v (VStr "") g1) as [[[]|e'] g2]; simpl in Hfail;
    [discriminate|].
  injection Hfail as ->. f_equal.
  revert Hspec. destruct (page_key k); try (intros [= _ <-]; reflexivity).
  destruct (negb _); [intros [= _ <-]; reflexivity|].
  destruct (startswith_slash s); [intros [= _ <-]; reflexivity|].
  destruct (bool_decide _); [intros [= _ <-]; reflexivity|].
  destruct (negb _); [intros [= _ <-]; reflexivity | discriminate].
Qed.

Lemma add_pages_loop_invariants (d : list (value * value)) (g : gui) :
  NoDup (routes g) -> config_aligned g ->
  NoDup (routes (snd (add_pages_loop E d g)))
  /\ config_aligned (snd (add_pages_loop E d g)).
Proof.
  revert g. induction d as [|[k v] d IH]; intros g Hnd Hal; simpl; [auto|].
  unfold bind.
  pose proof (routes_add_page E (page_key k) v (VStr "") g Hnd) as Hnd1.
  pose proof (add_page_aligned (page_key k) v (VStr "") g Hal) as Hal1.
  destruct (add_page E (page_key k) v (VStr "") g) as [[[]|e] g1]; simpl in *; auto.
Qed.

(** X20. [add_pages] keeps the page routes pairwise distinct and the lists
    of the configuration paired, whether it returns or raises midway. *)
Theorem add_pages_keeps_invariants (pages : pages_arg) (g : gui) :
  NoDup (routes g) -> config_aligned g ->
  NoDup (routes (snd (add_pages E pages g)))
  /\ config_aligned (snd (add_pages E pages g)).
Proof.
  intros Hnd Hal. destruct pages as [d|]; simpl; [|auto].
  apply add_pages_loop_invariants; assumption.
Qed.

(** *** Control messages *)

Lemma ws_emit_spec (t : WsType) (fields : list ws_entry) (g : gui) :
  ws_emit E t fields g =
    match ws_emit_error E (WsMessage t fields (_get_ws_receiver g)) with
    | None => (Ok tt, with_emitted (emitted g ++ [WsMessage t fields (_get_ws_receiver g)]) g)
    | Some e => (Ok tt, with_warnings_log (warnings_log g ++ [WWebSocketError e]) g)
    end.
Proof.
  unfold ws_emit, try_except, warn. mstep.
  destruct (ws_emit_error E _); reflexivity.
Qed.

Lemma ws_emit_emits_or_warns (t : WsType) (fields : list ws_entry) (g : gui) :
  emits_or_warns t g (ws_emit E t fields g).
Proof.
  rewrite ws_emit_spec. unfold emits_or_warns.
  destruct (ws_emit_error E _) as [e|]; simpl; (split; [reflexivity|]).
  - right. eauto.
  - left. eexists. repeat split.
Qed.

(** X21. No error of the transport leaves the methods that push a single
    message: each of them returns normally, having either handed one
    message of its kind to the transport, addressed to the receiver of the
    request, or logged the exception of the transport as one warning. *)
Theorem control_messages_never_raise (g : gui) :
  (forall var_name payload, emits_or_warns UPDATE g (_send_ws_update E var_name payload g))
  /\ (forall type message browser duration,
         emits_or_warns ALERT g (_send_ws_alert E type message browser duration g))
  /\ (forall action message close cancel,
         emits_or_warns BLOCK g (_send_ws_block E action message close cancel g))
  /\ (forall to, emits_or_warns NAVIGATE g (_send_ws_navigate E to g)).
Proof. repeat split; intros; apply ws_emit_emits_or_warns. Qed.

(** X22. [navigate] never raises and never sends the client to a route that
    is not declared: it emits nothing and issues a warning, or it emits one
    NAVIGATE message whose target is a declared route, or the transport
    fails and the failure is logged. *)
Theorem navigate_only_to_declared_routes (to : value) (g : gui) :
  let r := navigate E to g in
  fst (fst r) = Ok tt
  /\ ((snd (fst r) = g /\ is_Some (snd r))
      \/ (snd r = None
          /\ exists s, s ∈ routes g
               /\ (snd (fst r)
                   = with_emitted (emitted g ++ [WsMessage NAVIGATE [WsEntry "to" (VStr s)]
                                                   (_get_ws_receiver g)]) g
                   \/ exists e, snd (fst r)
                                = with_warnings_log (warnings_log g ++ [WWebSocketError e]) g))).
Proof.
  intros r. subst r. unfold navigate.
  set (to' := if py_truthy to then to else VStr root_page_name).
  destruct (in_routes to' (routes g)) eqn:Hin; simpl.
  - unfold _send_ws_navigate. rewrite ws_emit_spec.
    destruct to' as [| | | | |s| | | | | | |]; try discriminate.
    apply bool_decide_eq_true in Hin.
    destruct (ws_emit_error E _) as [e|]; (split; [reflexivity|]);
      right; (split; [reflexivity|]); exists s; (split; [exact Hin|]); eauto.
  - split; [reflexivity|]. left. split; [reflexivity | eauto].
Qed.

(** X23. A page that [add_page] has registered can be navigated to: with
    the transport up, [navigate] to its name emits the NAVIGATE message for
    it and issues no warning. *)
Theorem navigate_after_add_page (name : string) (renderer style : value) (g : gui) :
  fst (add_page E (VStr name) renderer style g) = Ok tt ->
  (forall m, ws_emit_error E m = None) ->
  let g1 := snd (add_page E (VStr name) renderer style g) in
  navigate E (VStr name) g1
  = ((Ok tt, with_emitted (emitted g1 ++ [WsMessage NAVIGATE [WsEntry "to" (VStr name)]
                                            (_get_ws_receiver g1)]) g1), None).
Proof.
  intros Hok Hemit g1. subst g1. revert Hok. rewrite add_page_spec.
  destruct (RE_PAGE_NAME_match name) eqn:Hre; simpl; [|discriminate].
  destruct (startswith_slash name); [discriminate|].
  destruct (bool_decide (name ∈ routes g)); [discriminate|].
  destruct (isinstance_PageRenderer E renderer); simpl; [|discriminate].
  intros _. unfold navigate.
  assert (Hne : negb (String.eqb name "") = true).
  { destruct name; [discriminate Hre | reflexivity]. }
  cbn [py_truthy]. rewrite Hne. cbn [in_routes routes with_pages].
  rewrite bool_decide_eq_true_2 by (apply elem_of_app; right; apply list_elem_of_singleton; reflexivity).
  cbn [negb]. unfold _send_ws_navigate. rewrite ws_emit_spec, Hemit. reflexivity.
Qed.

(** *** Blocking the user interface *)

Lemma keeps_ws_emit {X} (obs : gui -> X) (t : WsType) (fields : list ws_entry) :
  (forall ws g, obs (with_warnings_log ws g) = obs g) ->
  (forall ms g, obs (with_emitted ms g) = obs g) ->
  keeps obs (ws_emit E t fields).
Proof.
  intros Hw He g. rewrite ws_emit_spec.
  destruct (ws_emit_error E _); simpl; auto.
Qed.

Lemma keeps_scope_send_ws_block (action message close cancel : value) :
  keeps get_scope (_send_ws_block E action message close cancel).
Proof. apply keeps_ws_emit; reflexivity. Qed.

Lemma unblock_ui_spec (g : gui) :
  unblock_ui E g =
    _send_ws_block E VNone VNone (VBool true) (VBool false)
      (match get_scope g !! UI_BLOCK_NAME with
       | Some _ => set_scope (<[UI_BLOCK_NAME := VBool false]> (get_scope g)) g
       | None => g
       end).
Proof.
  unfold unblock_ui, setattr_data_scope, _get_data_scope. unfold bind at 1. unfold gets at 1.
  destruct (get_scope g !! UI_BLOCK_NAME) as [v|] eqn:Hb.
  - rewrite bool_decide_eq_true_2 by eauto. reflexivity.
  - rewrite bool_decide_eq_false_2 by (intros [x Hx]; discriminate). reflexivity.
Qed.

(** X24. [unblock_ui] never raises, leaves the interface unblocked, and
    does not create the blocking variable in a scope that lacks it. *)
Theorem unblock_ui_unblocks (g : gui) :
  let r := unblock_ui E g in
  fst r = Ok tt
  /\ _is_ui_blocked (snd r) = VBool false
  /\ (get_scope g !! UI_BLOCK_NAME = None -> get_scope (snd r) = get_scope g).
Proof.
  intros r. subst r. rewrite unblock_ui_spec.
  split; [apply ws_emit_emits_or_warns|].
  unfold _is_ui_blocked, _get_data_scope. rewrite keeps_scope_send_ws_block.
  destruct (get_scope g !! UI_BLOCK_NAME) as [v|] eqn:Hb.
  - rewrite get_scope_set_scope, lookup_insert_eq. split; [reflexivity | discriminate].
  - rewrite Hb. auto.
Qed.

Lemma bind_Ok_inv {A B} (m : M A) (k : A -> M B) (g : gui) (b : B) :
  fst (bind m k g) = Ok b ->
  exists a g1, m g = (Ok a, g1) /\ bind m k g = k a g1.
Proof.
  unfold bind. destruct (m g) as [[a|e] g1]; simpl; [eauto | discriminate].
Qed.

(** X25. When [block_ui] returns, the interface is blocked; and unblocking
    it afterwards leaves it unblocked. *)
Theorem block_ui_blocks (locals_bind : option (list (string * value))) (fid : nat)
  (callback message : value) (g : gui) :
  fst (block_ui E locals_bind fid callback message g) = Ok tt ->
  let g1 := snd (block_ui E locals_bind fid callback message g) in
  _is_ui_blocked g1 = VBool true
  /\ _is_ui_blocked (snd (unblock_ui E g1)) = VBool false.
Proof.
  intros Hok g1. split.
  - subst g1. unfold block_ui in *.
    destruct (bind_Ok_inv _ _ _ _ Hok) as (a1 & s1 & _ & Heq).
    rewrite Heq in Hok |- *. clear Heq. cbv beta in Hok |- *.
    destruct (bind_Ok_inv _ _ _ _ Hok) as (a2 & s2 & _ & Heq).
    rewrite Heq in Hok |- *. clear Heq. cbv beta in Hok |- *.
    destruct (bind_Ok_inv _ _ _ _ Hok) as (blocked & s3 & Hgets & Heq).
    rewrite Heq in Hok |- *. clear Heq. cbv beta in Hok |- *.
    injection Hgets as Hblocked <-.
    destruct (bind_Ok_inv _ _ _ _ Hok) as (a4 & s4 & Hset & Heq).
    rewrite Heq. clear Heq Hok. cbv beta.
    unfold _is_ui_blocked, _get_data_scope. rewrite keeps_scope_send_ws_block.
    destruct blocked.
    + injection Hset as _ <-. unfold _get_data_scope.
      rewrite get_scope_set_scope, lookup_insert_eq. reflexivity.
    + rewrite _bind_spec in Hset.
      destruct (hasattr_self E s2 UI_BLOCK_NAME); [discriminate|].
      simpl in Hset. injection Hset as _ <-.
      rewrite get_scope_bind_result. reflexivity.
  - unfold _is_ui_blocked, _get_data_scope. rewrite unblock_ui_spec, keeps_scope_send_ws_block.
    destruct (get_scope g1 !! UI_BLOCK_NAME) as [v|] eqn:Hb.
    + rewrite get_scope_set_scope, lookup_insert_eq. reflexivity.
    + rewrite Hb. reflexivity.
Qed.

Section KeepsAction.

Context {X : Type} (obs : gui -> X).
Hypothesis obs_warnings : forall ws g, obs (with_warnings_log ws g) = obs g.
Hypothesis obs_calls : forall cs g, obs (with_calls cs g) = obs g.
Hypothesis obs_callbacks : forall f args, keeps obs (call_value E f args).

Lemma keeps_call_function_with_args (f id action payload : value) :
  keeps obs (__call_function_with_args E f id action payload).
Proof.
  intros g. destruct f; try reflexivity.
  rewrite __call_function_with_args_spec.
  destruct (call_args _ _ _ _) as [args|]; [|apply obs_warnings].
  cbv zeta. set (gr := with_calls (calls g ++ [(VFunc f, args)]) g).
  pose proof (obs_callbacks (VFunc f) args gr) as Hcb.
  unfold gr in Hcb at 2. rewrite obs_calls in Hcb.
  destruct (call_value E (VFunc f) args gr) as [[[]|e] g']; simpl in *;
    rewrite ?obs_warnings; exact Hcb.
Qed.

Lemma keeps_on_action (id payload : value) : keeps obs (_on_action E id payload).
Proof.
  unfold _on_action. apply keeps_bind.
  - destruct (py_truthy _); [|apply keeps_ret].
    apply keeps_bind; [destruct (action_of E payload); first [apply keeps_ret | apply keeps_raise]|].
    intros name. apply keeps_bind; [apply keeps_gets|]. intros has.
    destruct has; [|apply keeps_ret].
    apply keeps_bind; [intros g; reflexivity|]. intros f.
    apply keeps_call_function_with_args.
  - intros done. destruct done; [apply keeps_ret|].
    apply keeps_bind; [apply keeps_gets|]. intros f.
    destruct (py_truthy f); [|apply keeps_ret].
    apply keeps_bind; [apply keeps_call_function_with_args|]. intros _. apply keeps_ret.
Qed.

End KeepsAction.

(** X26. Cancelling a blocked interface unblocks it: after the function
    that [block_ui] installs has run, the interface is not blocked,
    whatever action callbacks it ends up calling, as long as these do not
    write the active scope themselves. *)
Theorem cancel_block_ui_unblocks (callback id payload : value) (g : gui) :
  (forall f args, keeps get_scope (call_value E f args)) ->
  _is_ui_blocked (snd (_taipy_on_cancel_block_ui E callback id payload g)) = VBool false.
Proof.
  intros Hcb. unfold _taipy_on_cancel_block_ui, setattr_data_scope, _get_data_scope.
  unfold bind at 1. unfold gets at 1. unfold _is_ui_blocked, _get_data_scope.
  assert (Hact : keeps get_scope (_on_action E id callback))
    by (apply keeps_on_action; [reflexivity | reflexivity | exact Hcb]).
  destruct (get_scope g !! UI_BLOCK_NAME) as [v|] eqn:Hb.
  - rewrite bool_decide_eq_true_2 by eauto. unfold bind, modify.
    rewrite Hact, get_scope_set_scope, lookup_insert_eq. reflexivity.
  - rewrite bool_decide_eq_false_2 by (intros [x Hx]; discriminate). unfold bind, ret.
    rewrite Hact, Hb. reflexivity.
Qed.

(** *** Binding from the locals of the application *)

Lemma hasattr_false_not_callback_field (g : gui) (name : string) :
  hasattr_self E g name = false -> name ∉ bound_props g ->
  String.eqb name "_update_function" = false
  /\ String.eqb name "_action_function" = false
  /\ instance_dict g !! name = None.
Proof.
  unfold hasattr_self, getattr_self. intros Hhas Hnot.
  rewrite decide_False in Hhas by exact Hnot.
  destruct (String.eqb name "_update_function"); [discriminate|].
  destruct (String.eqb name "_action_function"); [discriminate|].
  destruct (instance_dict g !! name); [discriminate | auto].
Qed.

Lemma bind_func_spec (locals : list (string * value)) (name : string) (f : pyfunc)
  (g : gui) :
  hasattr_self E g name = false -> name ∉ bound_props g ->
  dict_get locals name = Some (VFunc f) ->
  bind_func E (Some locals) (VStr name) g
  = (Ok true, with_instance_dict (<[name := VFunc f]> (instance_dict g)) g).
Proof.
  intros Hhas Hnot Hloc.
  destruct (hasattr_false_not_callback_field g name Hhas Hnot) as (Hu & Ha & _).
  unfold bind_func, get_locals_bind, setattr_self. mstep.
  rewrite Hhas, Hloc, bool_decide_eq_false_2 by exact Hnot. rewrite Hu, Ha. reflexivity.
Qed.

(** X27. A function of the application bound with [bind_func] answers the
    ACTION messages that name it: [bind_func] returns [True], and an action
    carrying the name as payload then makes the dispatcher call that
    function, with the arguments that fit its number of parameters, and
    return with the state the function left. *)
Theorem bind_func_then_action (locals : list (string * value)) (name : string) (f : pyfunc)
  (id : value) (args : list value) (g g' : gui) :
  hasattr_self E g name = false -> name ∉ bound_props g ->
  dict_get locals name = Some (VFunc f) ->
  name <> "" ->
  call_args (co_argcount f) id VNone (VStr name) = Some args ->
  let g1 := with_instance_dict (<[name := VFunc f]> (instance_dict g)) g in
  call_value E (VFunc f) args (with_calls (calls g1 ++ [(VFunc f, args)]) g1) = (Ok tt, g') ->
  bind_func E (Some locals) (VStr name) g = (Ok true, g1)
  /\ _on_action E id (VStr name) g1 = (Ok tt, g').
Proof.
  intros Hhas Hnot Hloc Hne Hargs g1 Hcall.
  destruct (hasattr_false_not_callback_field g name Hhas Hnot) as (Hu & Ha & _).
  split; [apply bind_func_spec; assumption|].
  apply (_on_action_engine_function id (VStr name) name f args g1 g'); auto.
  unfold getattr_self. subst g1. cbn [bound_props instance_dict with_instance_dict].
  rewrite decide_False by exact Hnot. rewrite Hu, Ha, lookup_insert_eq. reflexivity.
Qed.

(** X28. [bind_var] binds a name to the value that the locals of the
    application give it, and nothing else: it returns [False] and changes
    nothing for a name that the engine already has or that the locals do
    not define, and otherwise binds the value found there and returns
    [True].  Before [run] has captured the locals, it raises
    [AttributeError] for any name that the engine does not have. *)
Theorem bind_var_outcomes (locals : list (string * value)) (var_name : string) (g : gui) :
  let r := bind_var E (Some locals) var_name g in
  (hasattr_self E g var_name = true -> r = (Ok false, g))
  /\ (hasattr_self E g var_name = false ->
      bind_var E None var_name g = (Raise (Exn AttributeError "_locals_bind"), g))
  /\ (dict_get locals var_name = None -> r = (Ok false, g))
  /\ (forall val, hasattr_self E g var_name = false ->
                  dict_get locals var_name = Some val ->
                  isidentifier var_name = true ->
                  fst r = Ok true
                  /\ get_scope (snd r) !! var_name = Some (bound_value val)
                  /\ hasattr_self E (snd r) var_name = true).
Proof.
  intros r. subst r. unfold bind_var, get_locals_bind. mstep. split; [|split; [|split]].
  - intros ->. reflexivity.
  - intros ->. reflexivity.
  - intros ->. destruct (hasattr_self E g var_name); reflexivity.
  - intros val Hhas Hloc Hid. rewrite Hhas, Hloc, _bind_spec, Hhas, Hid. simpl.
    auto using get_scope_bind_result, hasattr_bind_result.
Qed.

End MoreFacts.

(** ** Further runs of the reference engine *)

Section ScenarioRuns.

Import Reference Scenarios.

Lemma reference_callbacks_keep_scope (f : value) (args : list value) :
  keeps get_scope (call_value f args).
Proof.
  intros g. unfold call_value. destruct f; try reflexivity.
  destruct (fn_id f) as [|[|n]]; reflexivity.
Qed.

Lemma reference_callbacks_keep_calls (f : value) (args : list value) :
  keeps calls (call_value f args).
Proof.
  intros g. unfold call_value. destruct f; try reflexivity.
  destruct (fn_id f) as [|[|n]]; reflexivity.
Qed.

Lemma bind_leaves_other_sessions_witness :
  client_scopes (snd (_bind env "counter" (VInt 7)
                        (with_request_sid (Some "A")
                           (after (_bind env "counter" (VInt 2)) (start true (Some "B"))))))
    !! "B"
  = Some {[ "counter" := VInt 2 ]}.
Proof.
  rewrite (bind_leaves_other_sessions env "counter" (VInt 7) _ "B").
  - vm_compute. reflexivity.
  - vm_compute. discriminate.
Defined.

Lemma binds_keep_global_defaults_witness :
  bound_have_default
    (run_binds env [(Some "A", "x", VInt 1); (Some "B", "x", VInt 2);
                    (None, "2bad", VInt 3); (Some "B", "y", VDict [])]
       (start true None)).
Proof.
  apply binds_keep_global_defaults.
  intros name Hin. change (name ∈ (∅ : gset string)) in Hin.
  by apply not_elem_of_empty in Hin.
Defined.

Lemma update_stores_and_notifies_witness :
  let r := _front_end_update env (VStr "count") (VStr "") (VBool true) g_seven in
  fst r = Ok tt
  /\ get_scope (snd r) !! "count" = Some (VInt 0)
  /\ emitted (snd r)
     = [WsMessage MULTIPLE_UPDATE [WsEntry "count" (VDict [("value", VInt 0)])] None].
Proof.
  apply (update_stores_and_notifies env "count" (VInt 0) (VInt 0)) with (currentvalue := VInt 7);
    try reflexivity; try (intros; reflexivity);
    try exact reference_broadcast_spares_active.
  intros sc. exists ["count"]. split; [reflexivity | right; reflexivity].
Defined.

Lemma update_then_request_round_trip_witness :
  let g1 := snd (_front_end_update env (VStr "count") (VStr "5") (VBool true) g_seven) in
  let r := _request_var_update env (VDict [("names", VList [VStr "count"])]) g1 in
  let msg := WsMessage MULTIPLE_UPDATE [WsEntry "count" (VDict [("value", VInt 5)])] None in
  fst r = Ok tt
  /\ get_scope (snd r) !! "count" = Some (VInt 5)
  /\ emitted (snd r) = [msg; msg].
Proof.
  apply (update_then_request_round_trip env "count" (VInt 5) (VInt 5))
    with (currentvalue := VInt 7);
    try reflexivity; try (intros; reflexivity);
    try exact reference_broadcast_spares_active.
  intros sc. exists ["count"]. split; [reflexivity | right; reflexivity].
Defined.

Lemma send_var_list_all_or_nothing_witness :
  let r := __send_var_list_update env [VStr "count"; VStr "missing"] g_seven in
  fst r = Raise (Exn AttributeError "missing")
  /\ emitted (snd r) = [] /\ warnings_log (snd r) = [].
Proof.
  split; [reflexivity|].
  apply (send_var_list_all_or_nothing env [VStr "count"; VStr "missing"] g_seven
           (Exn AttributeError "missing")).
  reflexivity.
Defined.

Lemma update_unbound_variable_raises_witness :
  _manage_message env "UPDATE"
    [("type", VStr "UPDATE"); ("name", VStr "missing"); ("payload", VStr "1")] g_seven
  = (Raise (Exn AttributeError "missing"), g_seven).
Proof.
  apply (update_unbound_variable_raises env "missing" (VStr "1")); reflexivity.
Defined.

Lemma update_leaves_other_sessions_witness :
  client_scopes
    (snd (_front_end_update env (VStr "counter") (VStr "5") (VBool true) g_two_sessions))
    !! "B"
  = Some {[ "counter" := VInt 2 ]}
  /\ get_scope
       (snd (_front_end_update env (VStr "counter") (VStr "5") (VBool true) g_two_sessions))
       !! "counter"
     = Some (VInt 5).
Proof.
  split; [|vm_compute; reflexivity].
  rewrite (update_leaves_other_sessions env (VStr "counter") (VStr "5") (VBool true)
             g_two_sessions "B").
  - vm_compute. reflexivity.
  - vm_compute. discriminate.
  - intros n v g0. reflexivity.
  - intros args g0. reflexivity.
Defined.

Lemma request_data_update_reply_witness :
  _request_data_update env (VStr "count") (VDict [("start", VInt 0)]) g_seven
  = (Ok tt,
     with_emitted
       [WsMessage MULTIPLE_UPDATE
          [WsEntry "count" (VDict [("value", VNone)]);
           WsEntry "count.refresh" (VDict [("value", VBool false)])] None] g_seven).
Proof.
  apply (request_data_update_reply env "count" (VInt 7) (VDict [("start", VInt 0)]) VNone
           g_seven); reflexivity.
Defined.

Lemma engine_attribute_handles_action_witness :
  _on_action env (VStr "c1") (VStr "do_it") (after (on_action on_act) g_do_it)
  = (Ok tt,
     with_calls [(VFunc do_it, [VSelf; VStr "c1"; VStr "do_it"])]
       (after (on_action on_act) g_do_it)).
Proof.
  apply (engine_attribute_handles_action env (VStr "c1") (VStr "do_it") "do_it" do_it
           [VSelf; VStr "c1"; VStr "do_it"]); try reflexivity.
  discriminate.
Defined.

Lemma on_action_calls_plain_functions_witness :
  exists l, calls (snd (_on_action env (VStr "c1") (VStr "do_it")
                          (after (on_action on_act) g_do_it)))
            = (calls (after (on_action on_act) g_do_it) ++ l)%list
            /\ (length l <= 2)%nat
            /\ Forall (fun c => isinstance_FunctionType (fst c) = true) l.
Proof.
  apply (on_action_calls_plain_functions env (VStr "c1") (VStr "do_it")
           (after (on_action on_act) g_do_it)).
  exact reference_callbacks_keep_calls.
Defined.

Lemma unhandled_action_is_dropped_witness :
  _on_action env (VStr "c1") (VStr "do_it") (start false None) = (Ok tt, start false None).
Proof.
  apply unhandled_action_is_dropped; [|reflexivity].
  right. exists "do_it". split; reflexivity.
Defined.

Lemma route_calls_keep_alignment_witness :
  config_aligned
    (run_route_calls env
       [AddPage (VStr "docs") renderer0 (VStr ""); AddPartial renderer0;
        AddPage (VStr "docs") renderer0 (VStr ""); AddPartial (VInt 0)]
       (start false None)).
Proof. apply route_calls_keep_alignment. split; reflexivity. Defined.

Lemma add_pages_stops_at_first_failure_witness :
  add_pages env (PagesDict (pages_ok ++ (VStr "a b", renderer0) :: pages_rest))
    (start false None)
  = (Raise (Exn SyntaxError "Page name a b is invalid."), g_root)
  /\ routes g_root = ["TaiPy_root_page"].
Proof.
  split; [|reflexivity].
  apply (add_pages_stops_at_first_failure env pages_ok pages_rest (VStr "a b") renderer0
           (start false None) g_root); reflexivity.
Defined.

Lemma add_pages_keeps_invariants_witness :
  NoDup (routes (snd (add_pages env (PagesDict (pages_ok ++ pages_ok ++ pages_rest))
                        (start false None))))
  /\ config_aligned (snd (add_pages env (PagesDict (pages_ok ++ pages_ok ++ pages_rest))
                            (start false None))).
Proof.
  apply add_pages_keeps_invariants; [apply NoDup_nil_2 | split; reflexivity].
Defined.

Lemma navigate_after_add_page_witness :
  navigate env (VStr "home") g_home
  = ((Ok tt, with_emitted [WsMessage NAVIGATE [WsEntry "to" (VStr "home")] None] g_home),
     None).
Proof.
  apply (navigate_after_add_page env "home" renderer0 (VStr "") (start false None));
    [reflexivity | intros m; reflexivity].
Defined.

Lemma block_ui_blocks_witness :
  _is_ui_blocked g_blocked = VBool true
  /\ _is_ui_blocked (snd (unblock_ui env g_blocked)) = VBool false.
Proof.
  apply (block_ui_blocks env (Some app_locals) 7 (VFunc on_cancel)
           (VStr "Work in Progress...") (start false None)).
  vm_compute. reflexivity.
Defined.

Lemma cancel_block_ui_unblocks_witness :
  _is_ui_blocked
    (snd (_taipy_on_cancel_block_ui env (VStr "on_cancel") (VStr "c1") VNone g_blocked))
  = VBool false.
Proof. apply cancel_block_ui_unblocks. exact reference_callbacks_keep_scope. Defined.

Lemma bind_func_then_action_witness :
  bind_func env (Some app_locals) (VStr "on_cancel") (start false None)
  = (Ok true, with_instance_dict (<["on_cancel" := VFunc on_cancel]> ∅) (start false None))
  /\ _on_action env (VStr "c1") (VStr "on_cancel")
       (with_instance_dict (<["on_cancel" := VFunc on_cancel]> ∅) (start false None))
     = (Ok tt,
        with_calls [(VFunc on_cancel, [VSelf; VStr "c1"])]
          (with_instance_dict (<["on_cancel" := VFunc on_cancel]> ∅) (start false None))).
Proof.
  apply (bind_func_then_action env app_locals "on_cancel" on_cancel (VStr "c1")
           [VSelf; VStr "c1"] (start false None)); try reflexivity.
  - apply not_elem_of_empty.
  - discriminate.
Defined.

End ScenarioRuns.
